(** * twillioCall-Client: the token endpoint and the call controller

    A shallow embedding of the two programs of the repository:

    - [TokenApi]: the Next.js API route that mints an access token
      (the [handler] of the token route);
    - [Home]: the React page [src/pages/index.tsx], whose hooks, refs,
      timers and SDK callbacks are written as a state-passing program.

    JavaScript strings are sequences of UTF-16 code units; they are
    modelled as lists of code units so that [length], [trim] and
    [startsWith] count what the JavaScript methods count. *)

From stdpp Require Import base option list strings numbers.
From Stdlib Require Import NArith Ascii DecimalNat DecimalString Floats.

Local Open Scope nat_scope.

(** ** JavaScript strings *)

Module Js.

Definition jsstring : Type := list N.

(** A string literal of the source, one code unit per character. *)
Fixpoint lit (s : string) : jsstring :=
  match s with
  | EmptyString => []
  | String a r => N_of_ascii a :: lit r
  end.

(** ECMAScript [WhiteSpace] and [LineTerminator] code points, the set
    that [String.prototype.trim] strips. *)
Definition is_whitespace (c : N) : bool :=
  bool_decide (c ∈ [9; 10; 11; 12; 13; 32; 160; 5760; 8232; 8233; 8239;
                     8287; 12288; 65279]%N)
  || ((8192 <=? c)%N && (c <=? 8202)%N).

Fixpoint trimStart (s : jsstring) : jsstring :=
  match s with
  | c :: r => if is_whitespace c then trimStart r else s
  | [] => []
  end.

Definition trimEnd (s : jsstring) : jsstring :=
  reverse (trimStart (reverse s)).

Definition trim (s : jsstring) : jsstring := trimEnd (trimStart s).

Definition startsWith (p s : jsstring) : bool :=
  bool_decide (take (length p) s = p).

(** Truthiness of a string: every string but the empty one. *)
Definition truthy_string (s : jsstring) : bool :=
  match s with [] => false | _ => true end.

(** [n.toString()] for a non-negative integer. *)
Definition of_nat (n : nat) : jsstring :=
  lit (NilZero.string_of_uint (Nat.to_uint n)).

(** The values a JSON request body can carry in a field, and
    [undefined] for a field that is absent.  Arrays and objects are
    always truthy and are not told apart. *)
Inductive jsval : Type :=
  | JUndefined
  | JNull
  | JBool (b : bool)
  | JNum (x : float)
  | JStr (s : jsstring)
  | JObject.

(** [ToBoolean]: what [!v] and [v || w] test. *)
Definition truthy (v : jsval) : bool :=
  match v with
  | JUndefined | JNull => false
  | JBool b => b
  | JNum x => negb (PrimFloat.eqb x 0%float || PrimFloat.is_nan x)
  | JStr s => truthy_string s
  | JObject => true
  end.

End Js.

Import Js.

(** ** The token endpoint *)

Module TokenApi.

(** A [req.body] that can be destructured (an object, or a string or
    number, whose four fields are all absent), as the four fields the
    handler reads from it: [JUndefined] for a field the body does not
    have. *)
Record body : Type := Body {
  accountSid : jsval;
  apiKey : jsval;
  apiSecret : jsval;
  appSid : jsval
}.

(** A request whose body the handler could destructure. *)
Record request : Type := Request {
  method : option jsstring;
  req_body : body
}.

(** [req.body] as the framework hands it over.  The body parser turns
    the JSON text [null] into [null], and [const { ... } = req.body]
    throws a [TypeError] on [null] and on [undefined]; every other value
    can be destructured. *)
Inductive body_value : Type :=
  | Nullish
  | Fields (b : body).

(** Any request the handler can be called with. *)
Record NextApiRequest : Type := NextRequest {
  next_method : option jsstring;
  next_body : body_value
}.

(** The SDK objects the handler builds before it asks for a JWT. *)
Record VoiceGrant : Type := mkVoiceGrant {
  outgoingApplicationSid : jsval;
  incomingAllow : bool
}.

Record AccessToken : Type := mkAccessToken {
  at_accountSid : jsval;
  keySid : jsval;
  secret : jsval;
  identity : jsstring;
  ttl : nat;
  grants : list VoiceGrant
}.

Inductive response_body : Type :=
  | ErrorBody (error : jsstring)
  | TokenBody (token : jsstring) (token_identity : jsstring).

Record response : Type := Response {
  status : nat;
  json : response_body
}.

(** What the signing library answers: a JWT string, or an exception
    thrown somewhere between [new AccessToken] and [toJwt()]. *)
Inductive sdk_result : Type :=
  | Jwt (s : jsstring)
  | Throws.

(** The handler either answers at once or hands a token description to
    the SDK and answers from what comes back. *)
Inductive handling : Type :=
  | Respond (r : response)
  | Sign (t : AccessToken) (k : sdk_result → response).

Definition is_POST (m : option jsstring) : bool :=
  bool_decide (m = Some (lit "POST")).

Definition web_client : jsstring := lit "web-client".

Definition newAccessToken (b : body) (identity : jsstring) : AccessToken :=
  mkAccessToken (accountSid b) (apiKey b) (apiSecret b) identity 3600 [].

Definition addGrant (g : VoiceGrant) (t : AccessToken) : AccessToken :=
  mkAccessToken (at_accountSid t) (keySid t) (secret t) (identity t) (ttl t)
                (grants t ++ [g]).

Definition handler (req : request) : handling :=
  if negb (is_POST (method req)) then
    Respond (Response 405 (ErrorBody (lit "Method not allowed")))
  else
    let b := req_body req in
    if negb (truthy (accountSid b)) || negb (truthy (apiKey b))
       || negb (truthy (apiSecret b)) || negb (truthy (appSid b)) then
      Respond (Response 400
        (ErrorBody (lit "Missing required Twilio credentials in request body")))
    else
      let identity := web_client in
      let accessToken := newAccessToken b identity in
      let voiceGrant := mkVoiceGrant (appSid b) false in
      let accessToken := addGrant voiceGrant accessToken in
      Sign accessToken (λ r,
        match r with
        | Jwt jwt => Response 200 (TokenBody jwt identity)
        | Throws =>
            Response 500 (ErrorBody (lit "Failed to generate access token"))
        end).

(** The endpoint run against a signing library. *)
Definition serve (sdk : AccessToken → sdk_result) (req : request) : response :=
  match handler req with
  | Respond r => r
  | Sign t k => k (sdk t)
  end.

(** How a call of the handler ends: it goes the way of [handling], or
    the exception of the destructuring leaves it before [res] was
    touched.  That statement stands before the [try], so the [catch]
    that answers 500 does not see the exception. *)
Inductive outcome : Type :=
  | Completes (h : handling)
  | TypeError.

(** The handler from its first line, on any request. *)
Definition handler_raw (req : NextApiRequest) : outcome :=
  if negb (is_POST (next_method req)) then
    Completes (Respond (Response 405 (ErrorBody (lit "Method not allowed"))))
  else
    match next_body req with
    | Nullish => TypeError
    | Fields b =>
        if negb (truthy (accountSid b)) || negb (truthy (apiKey b))
           || negb (truthy (apiSecret b)) || negb (truthy (appSid b)) then
          Completes (Respond (Response 400
            (ErrorBody (lit "Missing required Twilio credentials in request body"))))
        else
          let identity := web_client in
          let accessToken := newAccessToken b identity in
          let voiceGrant := mkVoiceGrant (appSid b) false in
          let accessToken := addGrant voiceGrant accessToken in
          Completes (Sign accessToken (λ r,
            match r with
            | Jwt jwt => Response 200 (TokenBody jwt identity)
            | Throws =>
                Response 500 (ErrorBody (lit "Failed to generate access token"))
            end))
    end.

(** The response the handler writes, if it writes one. *)
Definition serve_raw (sdk : AccessToken → sdk_result) (req : NextApiRequest)
    : option response :=
  match handler_raw req with
  | Completes (Respond r) => Some r
  | Completes (Sign t k) => Some (k (sdk t))
  | TypeError => None
  end.

(** A field the handler counts as missing. *)
Definition missing (v : jsval) : Prop := truthy v = false.

Definition all_present (b : body) : Prop :=
  truthy (accountSid b) = true ∧ truthy (apiKey b) = true ∧
  truthy (apiSecret b) = true ∧ truthy (appSid b) = true.

Definition some_missing (b : body) : Prop :=
  missing (accountSid b) ∨ missing (apiKey b) ∨
  missing (apiSecret b) ∨ missing (appSid b).

(** A falsy field replaced by an absent one. *)
Definition omit (v : jsval) : jsval := if truthy v then v else JUndefined.

Definition omit_falsy (req : request) : request :=
  let b := req_body req in
  Request (method req)
    (Body (omit (accountSid b)) (omit (apiKey b)) (omit (apiSecret b))
          (omit (appSid b))).

(** Sample requests and a signing library for the examples. *)
Definition sample_body : body :=
  Body (JStr (lit "ACxxxxxxxxxxxxxxxxxxxxxxxxx")) (JStr (lit "SKxxxxxxxxxxxxxxxxxxxxxxxxx"))
       (JStr (lit "s3cret")) (JStr (lit "APxxxxxxxxxxxxxxxxxxxxxxxxx")).

Definition sample_post : request := Request (Some (lit "POST")) sample_body.

Definition no_secret_post : request :=
  Request (Some (lit "POST"))
    (Body (accountSid sample_body) (apiKey sample_body) JUndefined (appSid sample_body)).

Definition empty_secret_post : request :=
  Request (Some (lit "POST"))
    (Body (accountSid sample_body) (apiKey sample_body) (JStr []) (appSid sample_body)).

Definition sample_get : request := Request (Some (lit "GET")) sample_body.

(** A POST whose JSON text is [null], and the same body under GET. *)
Definition null_post : NextApiRequest := NextRequest (Some (lit "POST")) Nullish.
Definition null_get : NextApiRequest := NextRequest (Some (lit "GET")) Nullish.

Definition signing_sdk (t : AccessToken) : sdk_result := Jwt (lit "header.payload.signature").
Definition failing_sdk (t : AccessToken) : sdk_result := Throws.

(** The token description the handler submits for a body. *)
Definition token_for (b : body) : AccessToken :=
  mkAccessToken (accountSid b) (apiKey b) (apiSecret b) web_client 3600
                [mkVoiceGrant (appSid b) false].

End TokenApi.

(** ** The page: hooks, refs and the world they act on *)

Module Home.

Inductive CallStatus : Type := idle | connecting | in_call | call_ended | error.

Global Instance CallStatus_eq_dec : EqDecision CallStatus.
Proof. solve_decision. Defined.

(** The object literal [{ accountSid, apiKey, apiSecret, appSid }] that a
    render closes over, is stringified for the request body and is saved. *)
Record credentials : Type := Credentials {
  c_accountSid : jsstring;
  c_apiKey : jsstring;
  c_apiSecret : jsstring;
  c_appSid : jsstring
}.

(** The text under the key ['twilioCredentials'], read through
    [JSON.parse].  [EmptyText] is the empty string, which the truthiness
    test of the effect treats as no entry.  [Malformed] is a text on which
    [JSON.parse] throws or which parses to [null]: the first property
    access then throws, and both land in the [catch].  [Stored] is an
    object whose fields are strings, as [saveCredentialsToStorage] writes
    them, or absent; a parsed number, boolean or string reads as an object
    with no fields. *)
Inductive stored_text : Type :=
  | EmptyText
  | Malformed
  | Stored (accountSid apiKey apiSecret appSid : option jsstring).

(** SDK objects live in a heap indexed by allocation order. *)
Inductive device_state : Type := Unregistered | Registered | Destroyed.
Inductive call_state : Type := Open | Disconnecting.

Global Instance device_state_eq_dec : EqDecision device_state.
Proof. solve_decision. Defined.

(** The three closures the page hands to [setInterval] and [setTimeout]. *)
Inductive callback : Type :=
  | tick_duration          (* () => setCallDuration(prev => prev + 1) *)
  | reset_after_call       (* idle, 'Ready to call', duration 0 *)
  | reset_after_failure.   (* idle, 'Ready to call' *)

(** A pending timer: milliseconds left, and the period when it repeats. *)
Record timer : Type := Timer {
  timer_id : nat;
  remaining : nat;
  period : option nat;
  timer_callback : callback
}.

(** What a [catch] clause receives. *)
Inductive thrown : Type :=
  | ErrorObject (message : jsstring)
  | NonError.

(** What [await response.json()] yields: the [error] and [token]
    properties of the parsed body, or a rejection.  A body that parses to
    [null] makes the property access throw a [TypeError], which reaches the
    same [catch] as a rejection and is filed under [JsonRejects]. *)
Inductive json_outcome : Type :=
  | JsonValue (error_field token_field : option jsstring)
  | JsonRejects (e : thrown).

Record http_response : Type := HttpResponse {
  status : nat;
  statusText : jsstring;
  json : json_outcome
}.

Definition ok (r : http_response) : bool :=
  (200 <=? status r) && (status r <=? 299).

Inductive fetch_result : Type :=
  | FetchRejects (e : thrown)
  | FetchResolves (r : http_response).

Record state : Type := State {
  callStatus : CallStatus;
  statusMessage : jsstring;
  isLoading : bool;
  callDuration : nat;
  accountSid : jsstring;
  apiKey : jsstring;
  apiSecret : jsstring;
  appSid : jsstring;
  isConfigured : bool;
  showConfigForm : bool;
  deviceRef : option nat;
  currentCallRef : option nat;
  timerRef : option nat;
  localStorage : option stored_text;
  devices : list device_state;
  calls : list call_state;
  timers : list timer;
  nextTimer : nat
}.

(** Functional update of one field, the others kept. *)
Definition with_callStatus (v : CallStatus) (s : state) : state :=
  State v (statusMessage s) (isLoading s) (callDuration s) (accountSid s)
        (apiKey s) (apiSecret s) (appSid s) (isConfigured s)
        (showConfigForm s) (deviceRef s) (currentCallRef s) (timerRef s)
        (localStorage s) (devices s) (calls s) (timers s) (nextTimer s).
Definition with_statusMessage (v : jsstring) (s : state) : state :=
  State (callStatus s) v (isLoading s) (callDuration s) (accountSid s)
        (apiKey s) (apiSecret s) (appSid s) (isConfigured s)
        (showConfigForm s) (deviceRef s) (currentCallRef s) (timerRef s)
        (localStorage s) (devices s) (calls s) (timers s) (nextTimer s).
Definition with_isLoading (v : bool) (s : state) : state :=
  State (callStatus s) (statusMessage s) v (callDuration s) (accountSid s)
        (apiKey s) (apiSecret s) (appSid s) (isConfigured s)
        (showConfigForm s) (deviceRef s) (currentCallRef s) (timerRef s)
        (localStorage s) (devices s) (calls s) (timers s) (nextTimer s).
Definition with_callDuration (v : nat) (s : state) : state :=
  State (callStatus s) (statusMessage s) (isLoading s) v (accountSid s)
        (apiKey s) (apiSecret s) (appSid s) (isConfigured s)
        (showConfigForm s) (deviceRef s) (currentCallRef s) (timerRef s)
        (localStorage s) (devices s) (calls s) (timers s) (nextTimer s).
Definition with_accountSid (v : jsstring) (s : state) : state :=
  State (callStatus s) (statusMessage s) (isLoading s) (callDuration s) v
        (apiKey s) (apiSecret s) (appSid s) (isConfigured s)
        (showConfigForm s) (deviceRef s) (currentCallRef s) (timerRef s)
        (localStorage s) (devices s) (calls s) (timers s) (nextTimer s).
Definition with_apiKey (v : jsstring) (s : state) : state :=
  State (callStatus s) (statusMessage s) (isLoading s) (callDuration s)
        (accountSid s) v (apiSecret s) (appSid s) (isConfigured s)
        (showConfigForm s) (deviceRef s) (currentCallRef s) (timerRef s)
        (localStorage s) (devices s) (calls s) (timers s) (nextTimer s).
Definition with_apiSecret (v : jsstring) (s : state) : state :=
  State (callStatus s) (statusMessage s) (isLoading s) (callDuration s)
        (accountSid s) (apiKey s) v (appSid s) (isConfigured s)
        (showConfigForm s) (deviceRef s) (currentCallRef s) (timerRef s)
        (localStorage s) (devices s) (calls s) (timers s) (nextTimer s).
Definition with_appSid (v : jsstring) (s : state) : state :=
  State (callStatus s) (statusMessage s) (isLoading s) (callDuration s)
        (accountSid s) (apiKey s) (apiSecret s) v (isConfigured s)
        (showConfigForm s) (deviceRef s) (currentCallRef s) (timerRef s)
        (localStorage s) (devices s) (calls s) (timers s) (nextTimer s).
Definition with_isConfigured (v : bool) (s : state) : state :=
  State (callStatus s) (statusMessage s) (isLoading s) (callDuration s)
        (accountSid s) (apiKey s) (apiSecret s) (appSid s) v
        (showConfigForm s) (deviceRef s) (currentCallRef s) (timerRef s)
        (localStorage s) (devices s) (calls s) (timers s) (nextTimer s).
Definition with_showConfigForm (v : bool) (s : state) : state :=
  State (callStatus s) (statusMessage s) (isLoading s) (callDuration s)
        (accountSid s) (apiKey s) (apiSecret s) (appSid s) (isConfigured
        s) v (deviceRef s) (currentCallRef s) (timerRef s) (localStorage
        s) (devices s) (calls s) (timers s) (nextTimer s).
Definition with_deviceRef (v : option nat) (s : state) : state :=
  State (callStatus s) (statusMessage s) (isLoading s) (callDuration s)
        (accountSid s) (apiKey s) (apiSecret s) (appSid s) (isConfigured
        s) (showConfigForm s) v (currentCallRef s) (timerRef s)
        (localStorage s) (devices s) (calls s) (timers s) (nextTimer s).
Definition with_currentCallRef (v : option nat) (s : state) : state :=
  State (callStatus s) (statusMessage s) (isLoading s) (callDuration s)
        (accountSid s) (apiKey s) (apiSecret s) (appSid s) (isConfigured
        s) (showConfigForm s) (deviceRef s) v (timerRef s) (localStorage
        s) (devices s) (calls s) (timers s) (nextTimer s).
Definition with_timerRef (v : option nat) (s : state) : state :=
  State (callStatus s) (statusMessage s) (isLoading s) (callDuration s)
        (accountSid s) (apiKey s) (apiSecret s) (appSid s) (isConfigured
        s) (showConfigForm s) (deviceRef s) (currentCallRef s) v
        (localStorage s) (devices s) (calls s) (timers s) (nextTimer s).
Definition with_localStorage (v : option stored_text) (s : state) : state :=
  State (callStatus s) (statusMessage s) (isLoading s) (callDuration s)
        (accountSid s) (apiKey s) (apiSecret s) (appSid s) (isConfigured
        s) (showConfigForm s) (deviceRef s) (currentCallRef s) (timerRef
        s) v (devices s) (calls s) (timers s) (nextTimer s).
Definition with_devices (v : list device_state) (s : state) : state :=
  State (callStatus s) (statusMessage s) (isLoading s) (callDuration s)
        (accountSid s) (apiKey s) (apiSecret s) (appSid s) (isConfigured
        s) (showConfigForm s) (deviceRef s) (currentCallRef s) (timerRef
        s) (localStorage s) v (calls s) (timers s) (nextTimer s).
Definition with_calls (v : list call_state) (s : state) : state :=
  State (callStatus s) (statusMessage s) (isLoading s) (callDuration s)
        (accountSid s) (apiKey s) (apiSecret s) (appSid s) (isConfigured
        s) (showConfigForm s) (deviceRef s) (currentCallRef s) (timerRef
        s) (localStorage s) (devices s) v (timers s) (nextTimer s).
Definition with_timers (v : list timer) (s : state) : state :=
  State (callStatus s) (statusMessage s) (isLoading s) (callDuration s)
        (accountSid s) (apiKey s) (apiSecret s) (appSid s) (isConfigured
        s) (showConfigForm s) (deviceRef s) (currentCallRef s) (timerRef
        s) (localStorage s) (devices s) (calls s) v (nextTimer s).
Definition with_nextTimer (v : nat) (s : state) : state :=
  State (callStatus s) (statusMessage s) (isLoading s) (callDuration s)
        (accountSid s) (apiKey s) (apiSecret s) (appSid s) (isConfigured
        s) (showConfigForm s) (deviceRef s) (currentCallRef s) (timerRef
        s) (localStorage s) (devices s) (calls s) (timers s) v.

(** The first render: the [useState] and [useRef] initial values, over a
    browser that holds [stored] under the key and no SDK object yet. *)
Definition initial (stored : option stored_text) : state :=
  State idle (lit "Enter Twilio credentials to start") false 0
        [] [] [] [] false false None None None stored [] [] [] 1.

(** *** Handlers as state-passing programs *)

Definition M (A : Type) : Type := state → A * state.

Global Instance M_ret : MRet M := λ A a s, (a, s).
Global Instance M_bind : MBind M :=
  λ A B f m s, let (a, s') := m s in f a s'.

Definition exec {A} (m : M A) (s : state) : state := snd (m s).
Definition modify (f : state → state) : M unit := λ s, (tt, f s).
Definition get {A} (f : state → A) : M A := λ s, (f s, s).

Definition setCallStatus v := modify (with_callStatus v).
Definition setStatusMessage v := modify (with_statusMessage v).
Definition setIsLoading v := modify (with_isLoading v).
Definition setCallDuration v := modify (with_callDuration v).
Definition setAccountSid v := modify (with_accountSid v).
Definition setApiKey v := modify (with_apiKey v).
Definition setApiSecret v := modify (with_apiSecret v).
Definition setAppSid v := modify (with_appSid v).
Definition setIsConfigured v := modify (with_isConfigured v).
Definition setShowConfigForm v := modify (with_showConfigForm v).

Definition localStorage_removeItem : M unit := modify (with_localStorage None).
Definition localStorage_setItem (t : stored_text) : M unit :=
  modify (with_localStorage (Some t)).

(** [new Device(token, options)]: a fresh, unregistered device. *)
Definition Device_new : M nat :=
  λ s, (length (devices s), with_devices (devices s ++ [Unregistered]) s).

Definition Device_destroy (d : nat) : M unit :=
  modify (λ s, with_devices (<[d := Destroyed]> (devices s)) s).

(** The SDK completing [register()] on a device that was not destroyed. *)
Definition Device_registered (d : nat) : M unit :=
  modify (λ s, with_devices
    (alter (λ st, match st with Unregistered => Registered | _ => st end) d
           (devices s)) s).

(** [device.connect(...)] resolving with a fresh call. *)
Definition Call_new : M nat :=
  λ s, (length (calls s), with_calls (calls s ++ [Open]) s).

Definition Call_disconnect (c : nat) : M unit :=
  modify (λ s, with_calls (<[c := Disconnecting]> (calls s)) s).

Definition new_timer (delay : nat) (p : option nat) (f : callback) : M nat :=
  λ s, (nextTimer s,
        with_nextTimer (S (nextTimer s))
          (with_timers (timers s ++ [Timer (nextTimer s) delay p f]) s)).

Definition setInterval (f : callback) (ms : nat) : M nat := new_timer ms (Some ms) f.
Definition setTimeout (f : callback) (ms : nat) : M nat := new_timer ms None f.

Definition clearInterval (id : nat) : M unit :=
  modify (λ s, with_timers
    (filter (λ t, timer_id t ≠ id) (timers s)) s).

Definition set_deviceRef v := modify (with_deviceRef v).
Definition set_currentCallRef v := modify (with_currentCallRef v).
Definition set_timerRef v := modify (with_timerRef v).

Definition skip : M unit := mret tt.

(** The credentials the current render closes over. *)
Definition closure (s : state) : credentials :=
  Credentials (accountSid s) (apiKey s) (apiSecret s) (appSid s).

(** [x || ''] and the truthiness of a property that is a string or absent. *)
Definition or_empty (x : option jsstring) : jsstring := default [] x.
Definition present (x : option jsstring) : bool := truthy_string (or_empty x).

Definition placeholder : jsstring := lit "***".
Definition is_placeholder (x : option jsstring) : bool :=
  bool_decide (x = Some placeholder).

Definition saveCredentialsToStorage (c : credentials) : M unit :=
  localStorage_setItem
    (Stored (Some (c_accountSid c)) (Some (c_apiKey c))
            (Some (c_apiSecret c)) (Some (c_appSid c))).

Definition clearCredentialsFromStorage : M unit := localStorage_removeItem.

Definition areCredentialsComplete (c : credentials) : bool :=
  let hasAllFields :=
    truthy_string (trim (c_accountSid c)) && truthy_string (trim (c_apiKey c))
    && truthy_string (trim (c_apiSecret c)) && truthy_string (trim (c_appSid c)) in
  if negb hasAllFields then false
  else
    let isValidAccountSid :=
      startsWith (lit "AC") (trim (c_accountSid c))
      && (20 <? length (trim (c_accountSid c))) in
    let isValidApiKey :=
      startsWith (lit "SK") (trim (c_apiKey c))
      && (20 <? length (trim (c_apiKey c))) in
    let isValidAppSid :=
      startsWith (lit "AP") (trim (c_appSid c))
      && (20 <? length (trim (c_appSid c))) in
    isValidAccountSid && isValidApiKey && isValidAppSid.

Definition clearInvalidCredentials : M unit :=
  localStorage_removeItem ;;
  setAccountSid [] ;;
  setApiKey [] ;;
  setApiSecret [] ;;
  setAppSid [] ;;
  setIsConfigured false ;;
  setShowConfigForm true ;;
  setStatusMessage (lit "Please enter valid Twilio credentials").

(** The mount effect that loads the saved credentials. *)
Definition loadCredentials : M unit :=
  savedCredentials ← get localStorage;
  match savedCredentials with
  | Some (Stored a k x p) =>
      setAccountSid (or_empty a) ;;
      setApiKey (or_empty k) ;;
      setApiSecret (or_empty x) ;;
      setAppSid (or_empty p) ;;
      if present a && present k && present x && present p then
        if is_placeholder a || is_placeholder k || is_placeholder p then
          clearInvalidCredentials
        else
          setIsConfigured true ;;
          setStatusMessage (lit "Ready to call")
      else
        setShowConfigForm true
  | Some Malformed =>
      localStorage_removeItem ;;
      setShowConfigForm true
  | Some EmptyText | None =>
      setShowConfigForm true
  end.

(** The cleanup of the second effect, run on unmount. *)
Definition cleanup : M unit :=
  d ← get deviceRef;
  (if d is Some d then Device_destroy d else skip) ;;
  t ← get timerRef;
  if t is Some t then clearInterval t else skip.

(** [error instanceof Error ? error.message : 'Unknown error'] *)
Definition message_of (e : thrown) : jsstring :=
  match e with
  | ErrorObject m => m
  | NonError => lit "Unknown error"
  end.

(** The [catch] block of [initializeDevice]. *)
Definition initializeDevice_catch (e : thrown) : M unit :=
  setCallStatus error ;;
  setStatusMessage (lit "Failed to initialize device: " ++ message_of e) ;;
  setIsLoading false.

(** [initializeDevice] up to its first [await]: [true] when the token
    request has been sent. *)
Definition initializeDevice (c : credentials) : M bool :=
  if negb (areCredentialsComplete c) then
    setStatusMessage (lit "Missing Twilio credentials. Please configure first.") ;;
    setCallStatus error ;;
    mret false
  else
    d ← get deviceRef;
    (if d is Some d then Device_destroy d ;; set_deviceRef None else skip) ;;
    setIsLoading true ;;
    setStatusMessage (lit "Initializing Twilio Device...") ;;
    mret true.

(** What the [try] block does with the settled token request: the error
    it throws, or the token it goes on with. *)
Definition token_of (r : fetch_result) : thrown + jsstring :=
  match r with
  | FetchRejects e => inl e
  | FetchResolves r =>
      if negb (ok r) then
        match json r with
        | JsonRejects e => inl e
        | JsonValue err _ =>
            inl (ErrorObject
              (if present err then or_empty err
               else lit "Failed to get access token: " ++ of_nat (status r)
                    ++ lit " " ++ statusText r))
        end
      else
        match json r with
        | JsonRejects e => inl e
        | JsonValue _ token =>
            if negb (present token) then
              inl (ErrorObject (lit "No token received from API"))
            else inr (or_empty token)
        end
  end.

(** [initializeDevice] from the settled token request to the pending
    [device.register()]: the device under registration, if any. *)
Definition initializeDevice_fetched (r : fetch_result) : M (option nat) :=
  match token_of r with
  | inl e => initializeDevice_catch e ;; mret None
  | inr token => device ← Device_new; mret (Some device)
  end.

(** After [await device.register()]. *)
Definition initializeDevice_registered (device : nat) : M unit :=
  set_deviceRef (Some device).

(** The listeners [initializeDevice] puts on the device. *)
Definition on_device_registered : M unit :=
  setStatusMessage (lit "Device ready - Click to call agent") ;;
  setIsLoading false ;;
  setCallStatus idle.

Definition on_device_error (message : jsstring) : M unit :=
  setCallStatus error ;;
  setStatusMessage (lit "Device error: " ++ message) ;;
  setIsLoading false.

Definition on_device_incoming : M unit := skip.

(** [handleConfigure] up to its [await fetch]: [true] when the probe has
    been sent. *)
Definition handleConfigure (c : credentials) : M bool :=
  if negb (areCredentialsComplete c) then
    setStatusMessage (lit "Please fill in all Twilio credentials") ;;
    mret false
  else
    setIsLoading true ;;
    setStatusMessage (lit "Testing credentials...") ;;
    mret true.

(** The error the [try] block of [handleConfigure] throws on the settled
    probe, if any. *)
Definition probe_error (r : fetch_result) : option thrown :=
  match r with
  | FetchRejects e => Some e
  | FetchResolves r =>
      if negb (ok r) then
        match json r with
        | JsonRejects e => Some e
        | JsonValue err _ =>
            Some (ErrorObject
              (if present err then or_empty err
               else lit "Failed to test credentials: " ++ of_nat (status r)))
        end
      else None
  end.

(** [handleConfigure] after the probe has settled.  The closure is the one
    of the click, so [c] is what is saved and what [initializeDevice]
    validates.  The result tells whether a token request is now pending. *)
Definition handleConfigure_settled (c : credentials) (r : fetch_result) : M bool :=
  match probe_error r with
  | Some e =>
      setStatusMessage (lit "Credential validation failed: " ++ message_of e) ;;
      setIsLoading false ;;
      mret false
  | None =>
      saveCredentialsToStorage c ;;
      setIsConfigured true ;;
      setShowConfigForm false ;;
      setStatusMessage (lit "Credentials validated! Ready to call") ;;
      initializeDevice c
  end.

(** One whole [handleConfigure]: the click and, when the probe was sent,
    its continuation on the settled probe, with nothing in between. *)
Definition configure (c : credentials) (probe : fetch_result) (s : state) : state :=
  match handleConfigure c s with
  | (false, s1) => s1
  | (true, s1) => exec (handleConfigure_settled c probe) s1
  end.

Definition resetConfiguration : M unit :=
  setIsConfigured false ;;
  setCallStatus idle ;;
  setStatusMessage (lit "Enter Twilio credentials to start") ;;
  setShowConfigForm true ;;
  setAccountSid [] ;;
  setApiKey [] ;;
  setApiSecret [] ;;
  setAppSid [] ;;
  clearCredentialsFromStorage ;;
  d ← get deviceRef;
  if d is Some d then Device_destroy d ;; set_deviceRef None else skip.

Definition updateCredentials : M unit := setShowConfigForm true.

(** [makeCall] up to [await deviceRef.current.connect(...)]: [true] when
    the connection has been requested. *)
Definition makeCall : M bool :=
  d ← get deviceRef;
  if d is Some _ then
    setCallStatus connecting ;;
    setStatusMessage (lit "Connecting...") ;;
    mret true
  else
    setStatusMessage (lit "Device not initialized") ;;
    mret false.

(** After the [await]: the call is stored and its listeners attached. *)
Definition makeCall_connected (call : nat) : M unit :=
  set_currentCallRef (Some call).

(** The [catch] block of [makeCall]. *)
Definition makeCall_catch : M unit :=
  setCallStatus error ;;
  setStatusMessage (lit "Failed to make call") ;;
  _ ← setTimeout reset_after_failure 3000;
  skip.

(** The block every terminal call listener shares. *)
Definition stop_timer : M unit :=
  t ← get timerRef;
  if t is Some t then clearInterval t ;; set_timerRef None else skip.

Definition on_call_accept : M unit :=
  setCallStatus in_call ;;
  setStatusMessage (lit "In call with agent") ;;
  setCallDuration 0 ;;
  t ← setInterval tick_duration 1000;
  set_timerRef (Some t).

Definition on_call_ended (message : jsstring) : M unit :=
  setCallStatus call_ended ;;
  setStatusMessage message ;;
  set_currentCallRef None ;;
  stop_timer ;;
  _ ← setTimeout reset_after_call 3000;
  skip.

Definition on_call_disconnect : M unit := on_call_ended (lit "Call ended").
Definition on_call_cancel : M unit := on_call_ended (lit "Call cancelled").
Definition on_call_reject : M unit := on_call_ended (lit "Call rejected").

Definition on_call_error (message : jsstring) : M unit :=
  setCallStatus error ;;
  setStatusMessage (lit "Call error: " ++ message) ;;
  set_currentCallRef None ;;
  stop_timer ;;
  _ ← setTimeout reset_after_call 3000;
  skip.

Definition hangupCall : M unit :=
  c ← get currentCallRef;
  if c is Some c then Call_disconnect c else skip.

Definition isButtonDisabled (s : state) : bool :=
  isLoading s || bool_decide (callStatus s = connecting)
  || bool_decide (callStatus s = call_ended) || negb (isConfigured s)
  || negb (areCredentialsComplete (closure s)).

(** [true] when [makeCall] has requested a connection. *)
Definition handleButtonClick : M bool :=
  st ← get callStatus;
  configured ← get isConfigured;
  if bool_decide (st = in_call) then hangupCall ;; mret false
  else if bool_decide (st = idle) && configured then makeCall
  else mret false.

(** *** Timers *)

Definition run_callback (f : callback) : M unit :=
  match f with
  | tick_duration => prev ← get callDuration; setCallDuration (prev + 1)
  | reset_after_call =>
      setCallStatus idle ;;
      setStatusMessage (lit "Ready to call") ;;
      setCallDuration 0
  | reset_after_failure =>
      setCallStatus idle ;;
      setStatusMessage (lit "Ready to call")
  end.

Definition age (t : timer) : timer :=
  Timer (timer_id t) (pred (remaining t)) (period t) (timer_callback t).

Definition is_due (t : timer) : bool := bool_decide (remaining t = 0).

(** A due timeout is gone, a due interval is armed again. *)
Definition rearm (t : timer) : option timer :=
  if is_due t then
    match period t with
    | Some p => Some (Timer (timer_id t) p (period t) (timer_callback t))
    | None => None
    end
  else Some t.

(** One millisecond passes: every timer ages, and those that come due
    run in the order they were created. *)
Definition tick (s : state) : state :=
  let aged := age <$> timers s in
  foldl (λ s t, exec (run_callback (timer_callback t)) s)
        (with_timers (omap rearm aged) s)
        (filter (λ t, is_due t = true) aged).

Fixpoint elapse (ms : nat) (s : state) : state :=
  match ms with
  | 0 => s
  | S ms => elapse ms (tick s)
  end.

(** *** Events

    Everything that can run page code: the two effects, the user, a
    settled promise, an SDK callback, the clock.  A settled promise
    carries what its continuation closed over. *)
Inductive event : Type :=
  | Mount
  | Unmount
  | InputAccountSid (v : jsstring)
  | InputApiKey (v : jsstring)
  | InputApiSecret (v : jsstring)
  | InputAppSid (v : jsstring)
  | ToggleConfigForm
  | ClickConfigure
  | ProbeSettled (c : credentials) (r : fetch_result)
  | TokenSettled (r : fetch_result)
  | RegisterResolved (device : nat)
  | RegisterRejected (e : thrown)
  | DeviceRegistered
  | DeviceError (message : jsstring)
  | DeviceIncoming
  | ClickCall
  | ConnectResolved
  | ConnectRejected
  | CallAccept
  | CallDisconnect
  | CallCancel
  | CallReject
  | CallError (message : jsstring)
  | ClickUpdateCredentials
  | ClickReset
  | ClickClearInvalid
  | Wait (ms : nat).

(** The [disabled] attribute of the Configure button. *)
Definition isConfigureDisabled (s : state) : bool :=
  isLoading s || negb (truthy_string (accountSid s))
  || negb (truthy_string (apiKey s)) || negb (truthy_string (apiSecret s))
  || negb (truthy_string (appSid s)).

(** The page code an event runs.  [Unmount] runs the cleanup of the
    second effect and no more: that React discards the state updates of a
    component once it is unmounted is not part of the page's code and is
    not modelled. *)
Definition step (e : event) (s : state) : state :=
  match e with
  | Mount => exec loadCredentials s
  | Unmount => exec cleanup s
  | InputAccountSid v => exec (setAccountSid v) s
  | InputApiKey v => exec (setApiKey v) s
  | InputApiSecret v => exec (setApiSecret v) s
  | InputAppSid v => exec (setAppSid v) s
  | ToggleConfigForm => exec (setShowConfigForm (negb (showConfigForm s))) s
  | ClickConfigure =>
      if showConfigForm s && negb (isConfigureDisabled s)
      then exec (handleConfigure (closure s)) s else s
  | ProbeSettled c r => exec (handleConfigure_settled c r) s
  | TokenSettled r => exec (initializeDevice_fetched r) s
  | RegisterResolved d =>
      exec (Device_registered d ;; initializeDevice_registered d) s
  | RegisterRejected e => exec (initializeDevice_catch e) s
  | DeviceRegistered => exec on_device_registered s
  | DeviceError m => exec (on_device_error m) s
  | DeviceIncoming => exec on_device_incoming s
  | ClickCall => if isButtonDisabled s then s else exec handleButtonClick s
  | ConnectResolved => exec (call ← Call_new; makeCall_connected call) s
  | ConnectRejected => exec makeCall_catch s
  | CallAccept => exec on_call_accept s
  | CallDisconnect => exec on_call_disconnect s
  | CallCancel => exec on_call_cancel s
  | CallReject => exec on_call_reject s
  | CallError m => exec (on_call_error m) s
  | ClickUpdateCredentials => if isConfigured s then exec updateCredentials s else s
  | ClickReset => if isConfigured s then exec resetConfiguration s else s
  | ClickClearInvalid => if isConfigured s then exec clearInvalidCredentials s else s
  | Wait ms => elapse ms s
  end.

Definition run (es : list event) (s : state) : state := foldl (λ s e, step e s) s es.

(** *** Devices alive *)

(** Two ways of counting a device as alive: any device that was not
    destroyed, or only a device that holds a registration. *)
Definition is_alive (st : device_state) : bool :=
  match st with Destroyed => false | _ => true end.

Definition is_registered (st : device_state) : bool :=
  match st with Registered => true | _ => false end.

Definition count_devices (alive : device_state → bool) (s : state) : nat :=
  length (filter (λ st, alive st = true) (devices s)).

(** Every device that counts as alive is the one in [deviceRef]. *)
Definition owned (alive : device_state → bool) (s : state) : Prop :=
  ∀ d st, devices s !! d = Some st → alive st = true → deviceRef s = Some d.

Definition none_alive (alive : device_state → bool) (l : list device_state) : Prop :=
  Forall (λ st, alive st = false) l.

(** How the promise of [device.register()] settles. *)
Inductive register_result : Type :=
  | RegisterResolves
  | RegisterRejects (e : thrown).

(** The instants of one invocation of [initializeDevice] that nothing
    interrupts: after the synchronous part; after the token request has
    settled; then, when [device.register()] resolves, after the SDK has
    registered the device and fired ['registered'] and after the
    continuation of the [await], and when it rejects, after the [catch]
    block, which has no access to the device built inside the [try]. *)
Definition initializeDevice_instants
    (c : credentials) (r : fetch_result) (reg : register_result) (s : state)
    : list state :=
  match initializeDevice c s with
  | (false, s1) => [s1]
  | (true, s1) =>
      match initializeDevice_fetched r s1 with
      | (None, s2) => [s1; s2]
      | (Some device, s2) =>
          match reg with
          | RegisterResolves =>
              let s3 := exec (Device_registered device ;; on_device_registered) s2 in
              let s4 := exec (initializeDevice_registered device) s3 in
              [s1; s2; s3; s4]
          | RegisterRejects e =>
              [s1; s2; exec (initializeDevice_catch e) s2]
          end
      end
  end.

(** A scripted session used by the examples: credentials that pass the
    format rules, a token service that answers 200, a device that
    registers, a call that is accepted. *)
Definition demo_credentials : credentials :=
  Credentials (lit "ACxxxxxxxxxxxxxxxxxxxxxxxxx") (lit "SKxxxxxxxxxxxxxxxxxxxxxxxxx")
              (lit "s3cret") (lit "APxxxxxxxxxxxxxxxxxxxxxxxxx").

Definition token_200 : fetch_result :=
  FetchResolves (HttpResponse 200 (lit "OK")
    (JsonValue None (Some (lit "eyJhbGciOiJIUzI1NiJ9.e30.c2ln")))).

Definition error_400 : fetch_result :=
  FetchResolves (HttpResponse 400 (lit "Bad Request")
    (JsonValue (Some (lit "Missing required Twilio credentials in request body")) None)).

Definition configured_script : list event :=
  [ Mount;
    InputAccountSid (c_accountSid demo_credentials);
    InputApiKey (c_apiKey demo_credentials);
    InputApiSecret (c_apiSecret demo_credentials);
    InputAppSid (c_appSid demo_credentials);
    ClickConfigure;
    ProbeSettled demo_credentials token_200;
    TokenSettled token_200;
    DeviceRegistered;
    RegisterResolved 0 ].

Definition in_call_script : list event :=
  configured_script ++ [ClickCall; ConnectResolved; CallAccept].

Definition ready : state := run configured_script (initial None).
Definition calling : state := run in_call_script (initial None).

(** *** Vocabulary of the properties *)

(** The state after a clear: nothing persisted, the four fields empty,
    not configured. *)
Definition cleared (s : state) : Prop :=
  localStorage s = None ∧ accountSid s = [] ∧ apiKey s = []
  ∧ apiSecret s = [] ∧ appSid s = [] ∧ isConfigured s = false.

(** The probe succeeded: the request resolved with a 2xx response. *)
Definition probe_succeeds (r : fetch_result) : Prop :=
  ∃ resp, r = FetchResolves resp ∧ ok resp = true.

(** An event that puts the page in [error] is followed, three seconds
    later and with no other event in between, by [idle]. *)
Definition recovers_after (e : event) (s : state) : Prop :=
  callStatus (step e s) = error →
  callStatus (elapse 3000 (step e s)) = idle.

(** The closures that bring the page back to [idle]. *)
Definition resets (f : callback) : Prop :=
  f = reset_after_call ∨ f = reset_after_failure.

(** Saved entries used by the examples. *)
Definition masked_secret : stored_text :=
  Stored (Some (c_accountSid demo_credentials)) (Some (c_apiKey demo_credentials))
         (Some placeholder) (Some (c_appSid demo_credentials)).

Definition masked_account_no_app : stored_text :=
  Stored (Some placeholder) (Some (c_apiKey demo_credentials))
         (Some (c_apiSecret demo_credentials)) None.

Definition masked_account : stored_text :=
  Stored (Some placeholder) (Some (c_apiKey demo_credentials))
         (Some (c_apiSecret demo_credentials)) (Some (c_appSid demo_credentials)).

(** The page while the token request of [initializeDevice] is pending. *)
Definition initializing : state :=
  run [ Mount;
        InputAccountSid (c_accountSid demo_credentials);
        InputApiKey (c_apiKey demo_credentials);
        InputApiSecret (c_apiSecret demo_credentials);
        InputAppSid (c_appSid demo_credentials);
        ClickConfigure;
        ProbeSettled demo_credentials token_200 ] (initial None).

(** Twelve seconds into an accepted call. *)
Definition twelve_seconds_in : state := elapse (12 * 1000) calling.

(** The form filled in, before the Configure button is clicked. *)
Definition form_filled : state :=
  run [ Mount;
        InputAccountSid (c_accountSid demo_credentials);
        InputApiKey (c_apiKey demo_credentials);
        InputApiSecret (c_apiSecret demo_credentials);
        InputAppSid (c_appSid demo_credentials) ] (initial None).

(** The same credentials with a secret of blanks only. *)
Definition blank_secret : credentials :=
  Credentials (c_accountSid demo_credentials) (c_apiKey demo_credentials)
              (lit "   ") (c_appSid demo_credentials).

(** The device heap once the device in [deviceRef], if any, is destroyed. *)
Definition teardown (s : state) : list device_state :=
  match deviceRef s with
  | Some d => <[d := Destroyed]> (devices s)
  | None => devices s
  end.

(** *** What the page shows *)

(** [s.padStart(targetLength, padString)]: the pad string repeated and cut
    to the missing length; nothing when the string is long enough or the
    pad string is empty. *)
Definition padStart (targetLength : nat) (padString s : jsstring) : jsstring :=
  let fillLen := targetLength - length s in
  match padString with
  | [] => s
  | _ => take fillLen (concat (replicate fillLen padString)) ++ s
  end.

(** [formatTime] on the whole numbers of seconds the duration counter
    takes. *)
Definition formatTime (seconds : nat) : jsstring :=
  let mins := seconds / 60 in
  let secs := seconds mod 60 in
  padStart 2 (lit "0") (of_nat mins) ++ lit ":"
  ++ padStart 2 (lit "0") (of_nat secs).

Definition getButtonText (s : state) : jsstring :=
  if negb (isConfigured s) then lit "Configure Twilio First"
  else
    match callStatus s with
    | connecting => lit "Connecting..."
    | in_call => lit "Hang Up"
    | call_ended => lit "Call Ended"
    | _ => lit "Call Agent"
    end.

(** Reading a displayed duration back: the digits before the colon as
    minutes, the two after it as seconds. *)
Definition digits_value (s : jsstring) : nat :=
  foldl (λ acc c, 10 * acc + (N.to_nat c - 48)) 0 s.

Definition unformatTime (s : jsstring) : nat :=
  60 * digits_value (take (length s - 3) s)
  + digits_value (drop (length s - 2) s).

(** *** Kinds of events *)

(** What runs without the user: the callbacks of the SDK and of the
    clock and the continuations of [initializeDevice] and [makeCall].  The
    mount effect, the user's actions and the settled probe are the rest. *)
Definition is_callback (e : event) : bool :=
  match e with
  | DeviceRegistered | DeviceError _ | DeviceIncoming
  | CallAccept | CallDisconnect | CallCancel | CallReject | CallError _
  | ConnectResolved | ConnectRejected
  | RegisterResolved _ | RegisterRejected _ | TokenSettled _
  | Wait _ => true
  | _ => false
  end.

(** The part of the state that holds the credentials: the four fields,
    the configured flag and the saved entry. *)
Definition credential_part (s : state)
  : jsstring * jsstring * jsstring * jsstring * bool * option stored_text :=
  (accountSid s, apiKey s, apiSecret s, appSid s, isConfigured s, localStorage s).

(** The credential set with every field trimmed. *)
Definition trimmed (c : credentials) : credentials :=
  Credentials (trim (c_accountSid c)) (trim (c_apiKey c))
              (trim (c_apiSecret c)) (trim (c_appSid c)).

(** Credentials that pass the format rules with blanks around a field. *)
Definition padded_credentials : credentials :=
  Credentials (lit "  ACxxxxxxxxxxxxxxxxxxxxxxxxx ") (c_apiKey demo_credentials)
              (c_apiSecret demo_credentials) (c_appSid demo_credentials).

(** The page just after valid saved credentials were loaded. *)
Definition reloaded : state :=
  step Mount (initial (Some
    (Stored (Some (c_accountSid demo_credentials))
            (Some (c_apiKey demo_credentials))
            (Some (c_apiSecret demo_credentials))
            (Some (c_appSid demo_credentials))))).

(** *** More vocabulary *)

(** Everything but the status, the message and the duration. *)
Definition beyond_display (s : state) :=
  (isLoading s, credential_part s, showConfigForm s, deviceRef s,
   currentCallRef s, timerRef s, devices s, calls s, nextTimer s).


(** How a status can be entered: the event that does it and what must
    hold before. *)
Definition entered_by (e : event) (s : state) : Prop :=
  match callStatus (step e s) with
  | connecting =>
      e = ClickCall ∧ callStatus s = idle ∧ isConfigured s = true
      ∧ is_Some (deviceRef s) ∧ isButtonDisabled s = false
  | in_call => e = CallAccept
  | call_ended => e = CallDisconnect ∨ e = CallCancel ∨ e = CallReject
  | error =>
      (∃ m, e = DeviceError m) ∨ (∃ m, e = CallError m) ∨ e = ConnectRejected
      ∨ (∃ x, e = RegisterRejected x)
      ∨ (∃ r x, e = TokenSettled r ∧ token_of r = inl x)
      ∨ (∃ c r, e = ProbeSettled c r ∧ areCredentialsComplete c = false)
  | idle =>
      e = DeviceRegistered ∨ (e = ClickReset ∧ isConfigured s = true)
      ∨ ∃ ms, e = Wait ms
  end.


(** A string with nothing to trim in front. *)
Definition clean_start (s : jsstring) : Prop :=
  match s with c :: _ => is_whitespace c = false | [] => True end.





(** A first configuration whose registration is rejected, then a second
    one, through the Update Credentials button, that registers. *)
Definition rejected_then_reconfigured : list event :=
  [ Mount;
    InputAccountSid (c_accountSid demo_credentials);
    InputApiKey (c_apiKey demo_credentials);
    InputApiSecret (c_apiSecret demo_credentials);
    InputAppSid (c_appSid demo_credentials);
    ClickConfigure;
    ProbeSettled demo_credentials token_200;
    TokenSettled token_200;
    RegisterRejected (ErrorObject (lit "AccessTokenInvalid"));
    ClickUpdateCredentials;
    ClickConfigure;
    ProbeSettled demo_credentials token_200;
    TokenSettled token_200;
    DeviceRegistered;
    RegisterResolved 1 ].

End Home.


(** ** The page talking to the endpoint *)

Module Wire.
Import Home.

(** The request [fetch('/api/token', { method: 'POST', body:
    JSON.stringify({ accountSid, apiKey, apiSecret, appSid }) })] puts
    before the handler: four string fields. *)
Definition request_of (c : credentials) : TokenApi.request :=
  TokenApi.Request (Some (lit "POST"))
    (TokenApi.Body (JStr (c_accountSid c)) (JStr (c_apiKey c))
                   (JStr (c_apiSecret c)) (JStr (c_appSid c))).

(** What [response.json()] reads from the body the handler wrote. *)
Definition json_of (b : TokenApi.response_body) : json_outcome :=
  match b with
  | TokenApi.ErrorBody e => JsonValue (Some e) None
  | TokenApi.TokenBody t _ => JsonValue None (Some t)
  end.

(** The handler's answer as [fetch] hands it to the page, under the
    reason phrase the server attached. *)
Definition fetched (statusText : jsstring) (r : TokenApi.response) : fetch_result :=
  FetchResolves
    (HttpResponse (TokenApi.status r) statusText (json_of (TokenApi.json r))).

(** One request of the page answered by the endpoint over a signing
    library. *)
Definition ask (sdk : TokenApi.AccessToken → TokenApi.sdk_result)
    (statusText : jsstring) (c : credentials) : fetch_result :=
  fetched statusText (TokenApi.serve sdk (request_of c)).

End Wire.

(** * Properties of the token endpoint *)

Module TokenApiSpec.
Import TokenApi.

Lemma handler_not_POST req :
  is_POST (method req) = false →
  handler req = Respond (Response 405 (ErrorBody (lit "Method not allowed"))).
Proof. unfold handler. by intros ->. Qed.

Lemma some_missing_test b :
  some_missing b ↔
  negb (truthy (accountSid b)) || negb (truthy (apiKey b))
  || negb (truthy (apiSecret b)) || negb (truthy (appSid b)) = true.
Proof.
  unfold some_missing, missing.
  destruct (truthy (accountSid b)), (truthy (apiKey b)),
    (truthy (apiSecret b)), (truthy (appSid b)); simpl; intuition discriminate.
Qed.

Lemma all_present_test b :
  all_present b →
  negb (truthy (accountSid b)) || negb (truthy (apiKey b))
  || negb (truthy (apiSecret b)) || negb (truthy (appSid b)) = false.
Proof. by intros (-> & -> & -> & ->). Qed.

Lemma handler_missing req :
  method req = Some (lit "POST") → some_missing (req_body req) →
  handler req = Respond (Response 400
    (ErrorBody (lit "Missing required Twilio credentials in request body"))).
Proof.
  intros Hm Hmiss. apply some_missing_test in Hmiss.
  unfold handler, is_POST. rewrite Hm, bool_decide_eq_true_2 by done.
  simpl. by rewrite Hmiss.
Qed.

Lemma handler_signs req :
  method req = Some (lit "POST") → all_present (req_body req) →
  ∃ k, handler req = Sign (token_for (req_body req)) k
       ∧ (∀ jwt, k (Jwt jwt) = Response 200 (TokenBody jwt web_client))
       ∧ k Throws = Response 500 (ErrorBody (lit "Failed to generate access token")).
Proof.
  intros Hm Hall. apply all_present_test in Hall.
  unfold handler, is_POST. rewrite Hm, bool_decide_eq_true_2 by done.
  simpl. rewrite Hall. eexists. split; [reflexivity|]. by split.
Qed.

(** The answers on a body that can be destructured: 405 with an error
    body for a method other than POST; 400 with the missing-credentials
    message for a POST in which one of the four fields is missing, in
    particular when [apiSecret] is omitted; 200 with the signed token and
    the identity "web-client" for a POST with all four fields when
    signing succeeds; 500 with an error body when signing fails. *)
Lemma destructured_responses (sdk : AccessToken → sdk_result) (req : request) :
  (method req ≠ Some (lit "POST") →
     serve sdk req = Response 405 (ErrorBody (lit "Method not allowed")))
  ∧ (method req = Some (lit "POST") → some_missing (req_body req) →
     serve sdk req = Response 400
       (ErrorBody (lit "Missing required Twilio credentials in request body")))
  ∧ (method req = Some (lit "POST") → apiSecret (req_body req) = JUndefined →
     serve sdk req = Response 400
       (ErrorBody (lit "Missing required Twilio credentials in request body")))
  ∧ (∀ jwt, method req = Some (lit "POST") → all_present (req_body req) →
     sdk (token_for (req_body req)) = Jwt jwt →
     serve sdk req = Response 200 (TokenBody jwt (lit "web-client")))
  ∧ (method req = Some (lit "POST") → all_present (req_body req) →
     sdk (token_for (req_body req)) = Throws →
     serve sdk req = Response 500 (ErrorBody (lit "Failed to generate access token"))).
Proof.
  unfold serve. repeat split.
  - intros Hm. rewrite handler_not_POST; [done|].
    unfold is_POST. by apply bool_decide_eq_false_2.
  - intros Hm Hmiss. by rewrite handler_missing.
  - intros Hm Hsec. rewrite handler_missing; [done..|].
    right; right; left. unfold missing. by rewrite Hsec.
  - intros jwt Hm Hall Hsdk.
    destruct (handler_signs req Hm Hall) as (k & -> & Hk & _).
    by rewrite Hsdk, Hk.
  - intros Hm Hall Hsdk.
    destruct (handler_signs req Hm Hall) as (k & -> & _ & Hk).
    by rewrite Hsdk, Hk.
Qed.

(** On a body that can be destructured the handler is [handler]. *)
Lemma handler_raw_fields m b :
  handler_raw (NextRequest m (Fields b)) = Completes (handler (Request m b)).
Proof.
  unfold handler_raw, handler. cbn [next_method next_body method req_body].
  destruct (negb (is_POST m)); [reflexivity|].
  cbv zeta. by destruct (negb (truthy (accountSid b)) || _ || _ || _).
Qed.

Lemma serve_raw_fields sdk m b :
  serve_raw sdk (NextRequest m (Fields b)) = Some (serve sdk (Request m b)).
Proof.
  unfold serve_raw, serve. rewrite handler_raw_fields.
  by destruct (handler (Request m b)).
Qed.

(** C4. The endpoint over every request it can be called with.  A method
    other than POST is answered 405 whatever the body is, and a POST
    whose body can be destructured is answered 400 with the
    missing-credentials message when one of the four fields is missing,
    200 with the token and the identity "web-client" when signing
    succeeds, 500 when it fails.  But a POST whose body is [null] has
    none of the four fields and is not answered 400: the destructuring
    throws before the presence test, outside the [try], and the handler
    writes no response at all, whatever the signing library would do. *)
Theorem null_body_is_not_answered
    (sdk : AccessToken → sdk_result) (m : option jsstring) :
  handler_raw (NextRequest (Some (lit "POST")) Nullish) = TypeError
  ∧ serve_raw sdk (NextRequest (Some (lit "POST")) Nullish) = None
  ∧ (∀ e, serve_raw sdk (NextRequest (Some (lit "POST")) Nullish)
          ≠ Some (Response 400 (ErrorBody e)))
  ∧ (m ≠ Some (lit "POST") → ∀ v,
       serve_raw sdk (NextRequest m v)
       = Some (Response 405 (ErrorBody (lit "Method not allowed"))))
  ∧ (∀ b, m = Some (lit "POST") → some_missing b →
       serve_raw sdk (NextRequest m (Fields b))
       = Some (Response 400
           (ErrorBody (lit "Missing required Twilio credentials in request body"))))
  ∧ (∀ b jwt, m = Some (lit "POST") → all_present b →
       sdk (token_for b) = Jwt jwt →
       serve_raw sdk (NextRequest m (Fields b))
       = Some (Response 200 (TokenBody jwt (lit "web-client"))))
  ∧ (∀ b, m = Some (lit "POST") → all_present b →
       sdk (token_for b) = Throws →
       serve_raw sdk (NextRequest m (Fields b))
       = Some (Response 500 (ErrorBody (lit "Failed to generate access token")))).
Proof.
  split; [reflexivity|]. split; [reflexivity|]. split; [discriminate|].
  split.
  { intros Hm v. unfold serve_raw, handler_raw. cbn [next_method].
    unfold is_POST. by rewrite bool_decide_eq_false_2. }
  split.
  { intros b Hm Hmiss. rewrite serve_raw_fields. f_equal.
    destruct (destructured_responses sdk (Request m b)) as (_ & H400 & _).
    by apply H400. }
  split.
  { intros b jwt Hm Hall Hsdk. rewrite serve_raw_fields. f_equal.
    destruct (destructured_responses sdk (Request m b)) as (_ & _ & _ & H200 & _).
    by apply H200. }
  intros b Hm Hall Hsdk. rewrite serve_raw_fields. f_equal.
  destruct (destructured_responses sdk (Request m b)) as (_ & _ & _ & _ & H500).
  by apply H500.
Qed.

Lemma null_body_is_not_answered_witness :
  serve_raw signing_sdk null_post = None
  ∧ serve_raw failing_sdk null_post = None
  ∧ serve_raw signing_sdk null_get
    = Some (Response 405 (ErrorBody (lit "Method not allowed")))
  ∧ serve_raw signing_sdk (NextRequest (Some (lit "POST")) (Fields (req_body no_secret_post)))
    = Some (Response 400
        (ErrorBody (lit "Missing required Twilio credentials in request body")))
  ∧ serve_raw signing_sdk (NextRequest (Some (lit "POST")) (Fields sample_body))
    = Some (Response 200
        (TokenBody (lit "header.payload.signature") (lit "web-client")))
  ∧ serve_raw failing_sdk (NextRequest (Some (lit "POST")) (Fields sample_body))
    = Some (Response 500 (ErrorBody (lit "Failed to generate access token"))).
Proof.
  pose proof (null_body_is_not_answered signing_sdk (Some (lit "POST")))
    as (_ & Hnull & _ & _ & H400 & H200 & _).
  pose proof (null_body_is_not_answered failing_sdk (Some (lit "POST")))
    as (_ & Hnull' & _ & _ & _ & _ & H500).
  pose proof (null_body_is_not_answered signing_sdk (Some (lit "GET")))
    as (_ & _ & _ & H405 & _).
  split; [exact Hnull|]. split; [exact Hnull'|].
  split; [apply H405; discriminate|].
  split; [apply H400; [reflexivity | right; right; left; reflexivity]|].
  split; [apply H200; [reflexivity | repeat split | reflexivity]|].
  apply H500; [reflexivity | repeat split | reflexivity].
Defined.

(** C5. A token the endpoint hands out was signed from a description that
    carries the identity "web-client", a time to live of 3600 seconds (one
    hour) and exactly one voice grant, which names the application id of
    the request and disallows incoming calls; the response repeats the
    identity. *)
Theorem minted_token_shape
    (sdk : AccessToken → sdk_result) (req : request) (jwt ident : jsstring) :
  serve sdk req = Response 200 (TokenBody jwt ident) →
  ident = lit "web-client"
  ∧ ∃ t k, handler req = Sign t k ∧ sdk t = Jwt jwt
      ∧ identity t = lit "web-client"
      ∧ ttl t = 3600 ∧ ttl t = 60 * 60
      ∧ grants t = [mkVoiceGrant (appSid (req_body req)) false]
      ∧ (∀ g, g ∈ grants t →
           incomingAllow g = false
           ∧ outgoingApplicationSid g = appSid (req_body req)).
Proof.
  unfold serve, handler.
  destruct (negb (is_POST (method req))); [discriminate|].
  cbv zeta.
  destruct (negb (truthy (accountSid (req_body req))) || _ || _ || _);
    [discriminate|].
  destruct (sdk _) as [j|] eqn:Hsdk; [|discriminate].
  intros [= <- <-]. split; [done|].
  eexists _, _. split; [reflexivity|]. split; [exact Hsdk|].
  do 4 (split; [reflexivity|]).
  intros g Hg. apply list_elem_of_singleton in Hg. by subst g.
Qed.

Lemma minted_token_shape_witness :
  serve signing_sdk sample_post
    = Response 200 (TokenBody (lit "header.payload.signature") (lit "web-client"))
  ∧ ∃ t k, handler sample_post = Sign t k
      ∧ signing_sdk t = Jwt (lit "header.payload.signature")
      ∧ identity t = lit "web-client"
      ∧ ttl t = 3600 ∧ ttl t = 60 * 60
      ∧ grants t = [mkVoiceGrant (appSid (req_body sample_post)) false]
      ∧ (∀ g, g ∈ grants t →
           incomingAllow g = false
           ∧ outgoingApplicationSid g = appSid (req_body sample_post)).
Proof.
  split; [reflexivity|].
  apply (minted_token_shape signing_sdk sample_post
           (lit "header.payload.signature") (lit "web-client")).
  reflexivity.
Defined.

(** C10. Presence is truthiness: the empty string, [null], [false] and
    zero are missing just as an absent field is, and a POST in which one
    of the four fields is missing in that sense is answered 400 at once,
    without a signing request, exactly as the request with those fields
    left out. *)
Theorem falsy_field_is_missing (req : request) :
  method req = Some (lit "POST") → some_missing (req_body req) →
  (missing (JStr []) ∧ missing JUndefined ∧ missing JNull
   ∧ missing (JBool false) ∧ missing (JNum 0))
  ∧ handler req = Respond (Response 400
      (ErrorBody (lit "Missing required Twilio credentials in request body")))
  ∧ handler req = handler (omit_falsy req)
  ∧ (∀ t k, handler req ≠ Sign t k)
  ∧ (∀ sdk, status (serve sdk req) = 400).
Proof.
  intros Hm Hmiss. split; [by repeat split|].
  assert (some_missing (req_body (omit_falsy req))) as Hmiss'.
  { unfold some_missing, missing, omit_falsy, omit in *. cbn [req_body accountSid apiKey apiSecret appSid].
    destruct Hmiss as [H|[H|[H|H]]]; rewrite H; auto. }
  pose proof (handler_missing req Hm Hmiss) as Hreq.
  pose proof (handler_missing (omit_falsy req) Hm Hmiss') as Hreq'.
  split; [done|]. split; [congruence|].
  split; [by rewrite Hreq|].
  intros sdk. unfold serve. by rewrite Hreq.
Qed.

Lemma falsy_field_is_missing_witness :
  handler empty_secret_post = Respond (Response 400
      (ErrorBody (lit "Missing required Twilio credentials in request body")))
  ∧ handler empty_secret_post = handler no_secret_post.
Proof.
  assert (method empty_secret_post = Some (lit "POST")) as Hm by reflexivity.
  assert (some_missing (req_body empty_secret_post)) as Hmiss
    by (right; right; left; reflexivity).
  destruct (falsy_field_is_missing empty_secret_post Hm Hmiss)
    as (_ & H400 & Homit & _).
  split; [exact H400 | exact Homit].
Defined.

End TokenApiSpec.

(** * Properties of the page *)

Module HomeSpec.
Import Home.

(** A tactic for one handler on a state given field by field: unfold the
    program, keep strings and tests folded. *)
Ltac run_handler :=
  cbv -[lit app present is_placeholder or_empty orb andb negb message_of
        areCredentialsComplete probe_error token_of Js.of_nat
        filter alter length lookup].

(** ** Format validation *)

Lemma startsWith_true p s : startsWith p s = true ↔ ∃ r, s = p ++ r.
Proof.
  unfold startsWith. rewrite bool_decide_eq_true. split.
  - intros H. exists (drop (length p) s).
    rewrite <- (take_drop (length p) s) at 1. by rewrite H.
  - intros [r ->]. by rewrite take_app_length.
Qed.

Lemma truthy_string_true s : truthy_string s = true ↔ s ≠ [].
Proof. by destruct s. Qed.

(** What a credential set that passes has. *)
Lemma areCredentialsComplete_true c :
  areCredentialsComplete c = true ↔
  (trim (c_accountSid c) ≠ [] ∧ trim (c_apiKey c) ≠ []
   ∧ trim (c_apiSecret c) ≠ [] ∧ trim (c_appSid c) ≠ [])
  ∧ ((∃ r, trim (c_accountSid c) = lit "AC" ++ r) ∧ 20 < length (trim (c_accountSid c)))
  ∧ ((∃ r, trim (c_apiKey c) = lit "SK" ++ r) ∧ 20 < length (trim (c_apiKey c)))
  ∧ ((∃ r, trim (c_appSid c) = lit "AP" ++ r) ∧ 20 < length (trim (c_appSid c))).
Proof.
  unfold areCredentialsComplete.
  rewrite <- !startsWith_true, <- !truthy_string_true, <- !Nat.ltb_lt.
  destruct (truthy_string (trim (c_accountSid c))),
    (truthy_string (trim (c_apiKey c))),
    (truthy_string (trim (c_apiSecret c))),
    (truthy_string (trim (c_appSid c))); simpl;
    try (split; [discriminate | intros [(? & ? & ? & ?) _]; discriminate]).
  rewrite !andb_true_iff. tauto.
Qed.

Example demo_credentials_pass : areCredentialsComplete demo_credentials = true.
Proof. reflexivity. Qed.

(** C8. [areCredentialsComplete] answers [false] as soon as one of the four
    fields is empty once trimmed, or the account, key or application
    identifier, trimmed as the function trims it, lacks its prefix "AC",
    "SK" or "AP" or is at most 20 code units long.  It is a function of the
    four strings alone: it reads and writes nothing else. *)
Theorem areCredentialsComplete_rejects (c : credentials) :
  trim (c_accountSid c) = [] ∨ trim (c_apiKey c) = []
  ∨ trim (c_apiSecret c) = [] ∨ trim (c_appSid c) = []
  ∨ (∀ r, trim (c_accountSid c) ≠ lit "AC" ++ r)
  ∨ (∀ r, trim (c_apiKey c) ≠ lit "SK" ++ r)
  ∨ (∀ r, trim (c_appSid c) ≠ lit "AP" ++ r)
  ∨ length (trim (c_accountSid c)) ≤ 20
  ∨ length (trim (c_apiKey c)) ≤ 20
  ∨ length (trim (c_appSid c)) ≤ 20 →
  areCredentialsComplete c = false.
Proof.
  intros H. destruct (areCredentialsComplete c) eqn:E; [exfalso | done].
  apply areCredentialsComplete_true in E
    as ((Ha & Hk & Hx & Hp) & ([ra Hra] & Hla) & ([rk Hrk] & Hlk) & ([rp Hrp] & Hlp)).
  destruct H as [H|[H|[H|[H|[H|[H|[H|[H|[H|H]]]]]]]]]; try done; try lia.
  - by apply (H ra).
  - by apply (H rk).
  - by apply (H rp).
Qed.

Lemma areCredentialsComplete_rejects_witness :
  areCredentialsComplete
    (Credentials (lit "  AC123  ") (c_apiKey demo_credentials)
                 (c_apiSecret demo_credentials) (c_appSid demo_credentials))
  = false.
Proof.
  apply areCredentialsComplete_rejects.
  do 7 right. left. vm_compute. lia.
Defined.

(** ** Timers *)

Lemma run_callback_frame f s :
  timers (exec (run_callback f) s) = timers s
  ∧ timerRef (exec (run_callback f) s) = timerRef s
  ∧ currentCallRef (exec (run_callback f) s) = currentCallRef s.
Proof. by destruct s, f. Qed.

Lemma fired_timers l s :
  timers (foldl (λ s t, exec (run_callback (timer_callback t)) s) s l) = timers s.
Proof.
  revert s. induction l as [|t l IH]; intros s; [done|].
  simpl. rewrite IH. apply run_callback_frame.
Qed.

Lemma timers_tick s : timers (tick s) = omap rearm (age <$> timers s).
Proof. unfold tick. rewrite fired_timers. by destruct s. Qed.

Lemma run_callback_resets f s :
  resets f →
  callStatus (exec (run_callback f) s) = idle
  ∧ (f = reset_after_call → callDuration (exec (run_callback f) s) = 0).
Proof. intros [-> | ->]; by destruct s. Qed.

(** The youngest timer keeps its place at the end while it is not due. *)
Lemma tick_last_quiet s ts id n p f :
  timers s = ts ++ [Timer id (S (S n)) p f] →
  timers (tick s) = omap rearm (age <$> ts) ++ [Timer id (S n) p f].
Proof. intros H. by rewrite timers_tick, H, fmap_app, omap_app. Qed.

(** When it comes due it runs last. *)
Lemma tick_last_due s ts id p f :
  timers s = ts ++ [Timer id 1 p f] →
  ∃ s0, tick s = exec (run_callback f) s0.
Proof.
  intros H. unfold tick. rewrite H, fmap_app, list.filter_app, foldl_app.
  eexists. reflexivity.
Qed.

Lemma elapse_last n : ∀ s ts id f,
  resets f → timers s = ts ++ [Timer id (S n) None f] →
  callStatus (elapse (S n) s) = idle
  ∧ (f = reset_after_call → callDuration (elapse (S n) s) = 0).
Proof.
  induction n as [|n IH]; intros s ts id f Hf H.
  - simpl. destruct (tick_last_due _ _ _ _ _ H) as [s0 ->].
    by apply run_callback_resets.
  - change (elapse (S (S n)) s) with (elapse (S n) (tick s)).
    eapply IH; [done|]. by apply tick_last_quiet.
Qed.

Lemma elapse_add a b s : elapse (a + b) s = elapse b (elapse a s).
Proof. revert s. induction a as [|a IH]; intros s; [done|]. simpl. apply IH. Qed.

(** A lone timer that is not due yet only ages. *)
Lemma elapse_single_quiet k : ∀ s id n p f,
  timers s = [Timer id (S (k + n)) p f] →
  elapse k s = with_timers [Timer id (S n) p f] s.
Proof.
  induction k as [|k IH]; intros s id n p f H.
  - destruct s; simpl in H; subst. reflexivity.
  - simpl. rewrite (IH (tick s) id n p f).
    + unfold tick. rewrite H. destruct s; reflexivity.
    + rewrite timers_tick, H. reflexivity.
Qed.

Lemma tick_single_due s id p f :
  timers s = [Timer id 1 p f] →
  tick s = exec (run_callback f)
    (with_timers (match p with Some q => [Timer id q p f] | None => [] end) s).
Proof. intros H. unfold tick. rewrite H. destruct s, p; reflexivity. Qed.

Lemma elapse_single_due n s id p f :
  timers s = [Timer id (S n) p f] →
  elapse (S n) s = exec (run_callback f)
    (with_timers (match p with Some q => [Timer id q p f] | None => [] end) s).
Proof.
  intros H. replace (S n) with (n + 1) at 1 by lia. rewrite elapse_add.
  rewrite (elapse_single_quiet n s id 0 p f) by (by rewrite Nat.add_0_r).
  simpl. rewrite (tick_single_due _ id p f) by (by destruct s).
  by destruct s, p.
Qed.

(** ** Recovery from [error] *)

Lemma on_call_error_timers m s :
  callStatus (exec (on_call_error m) s) = error
  ∧ ∃ ts, timers (exec (on_call_error m) s)
          = ts ++ [Timer (nextTimer s) 3000 None reset_after_call].
Proof.
  split; [by destruct s as [? ? ? ? ? ? ? ? ? ? ? ? [id|] ? ? ? ? ?]|].
  exists (match timerRef s with
          | Some id => filter (λ t, timer_id t ≠ id) (timers s)
          | None => timers s
          end).
  destruct s as [? ? ? ? ? ? ? ? ? ? ? ? [id|] ? ? ? ? ?]; reflexivity.
Qed.

Lemma makeCall_catch_timers s :
  callStatus (exec makeCall_catch s) = error
  ∧ timers (exec makeCall_catch s)
    = timers s ++ [Timer (nextTimer s) 3000 None reset_after_failure].
Proof. by destruct s. Qed.

(** C1, as amended. When the page enters [error] through the ['error']
    listener of a call or through the [catch] of [makeCall], it is back in
    [idle] three seconds later, no other event intervening. *)
Theorem call_errors_recover (s : state) (m : jsstring) :
  (callStatus (step (CallError m) s) = error ∧ recovers_after (CallError m) s)
  ∧ (callStatus (step ConnectRejected s) = error ∧ recovers_after ConnectRejected s).
Proof.
  unfold recovers_after, step. split.
  - destruct (on_call_error_timers m s) as [Herr [ts Hts]].
    split; [done|]. intros _.
    by apply (elapse_last 2999 _ ts (nextTimer s) reset_after_call); [left|].
  - destruct (makeCall_catch_timers s) as [Herr Hts].
    split; [done|]. intros _.
    by apply (elapse_last 2999 _ (timers s) (nextTimer s) reset_after_failure);
      [right|].
Qed.

Lemma call_errors_recover_witness :
  callStatus (step (CallError (lit "ConnectionError")) twelve_seconds_in) = error
  ∧ callStatus (elapse 3000 (step (CallError (lit "ConnectionError")) twelve_seconds_in))
    = idle.
Proof.
  destruct (call_errors_recover twelve_seconds_in (lit "ConnectionError"))
    as [[Herr Hrec] _].
  split; [exact Herr | exact (Hrec Herr)].
Defined.

(** C1, as stated, fails: after the ['error'] listener of the device, after
    a token request that fails inside [initializeDevice], and after a
    rejected [device.register()], the page is in [error] and no timer is
    pending, so three seconds later it still is. *)
Lemma device_errors_do_not_recover :
  ¬ recovers_after (DeviceError (lit "ConnectionError")) ready
  ∧ ¬ recovers_after (TokenSettled error_400) initializing
  ∧ ¬ recovers_after (RegisterRejected (ErrorObject (lit "AccessTokenInvalid")))
        (step (TokenSettled token_200) initializing).
Proof.
  unfold recovers_after.
  repeat split; intros H;
    (lazymatch type of H with
     | ?P → _ => assert P as HP by (vm_compute; reflexivity)
     end);
    apply H in HP; vm_compute in HP; discriminate.
Qed.

(** ** A call that is disconnected *)

Lemma on_call_disconnect_frame s :
  let s1 := exec on_call_disconnect s in
  callStatus s1 = call_ended ∧ statusMessage s1 = lit "Call ended"
  ∧ currentCallRef s1 = None ∧ timerRef s1 = None
  ∧ callDuration s1 = callDuration s
  ∧ timers s1
    = (match timerRef s with
       | Some id => filter (λ t, timer_id t ≠ id) (timers s)
       | None => timers s
       end) ++ [Timer (nextTimer s) 3000 None reset_after_call].
Proof.
  destruct s as [? ? ? ? ? ? ? ? ? ? ? ? [id|] ? ? ? ? ?]; by repeat split.
Qed.

(** C7. The ['disconnect'] listener puts the page in [call_ended], clears
    the call reference, cancels the repeating timer it finds in [timerRef]
    and clears that reference; three seconds later, no other event
    intervening, the page is [idle] with duration 0.  When the cancelled
    timer was the only one pending, the duration shown keeps its value
    (12 for a call disconnected at 12 seconds) and the status stays
    [call_ended] all through those three seconds. *)
Theorem disconnect_ends_call (s : state) :
  let s1 := step CallDisconnect s in
  callStatus s1 = call_ended
  ∧ currentCallRef s1 = None
  ∧ timerRef s1 = None
  ∧ (∀ id t, timerRef s = Some id → t ∈ timers s1 →
       timer_callback t = tick_duration → timer_id t ≠ id)
  ∧ callDuration s1 = callDuration s
  ∧ callStatus (elapse 3000 s1) = idle
  ∧ callDuration (elapse 3000 s1) = 0
  ∧ (∀ id r, timerRef s = Some id →
       timers s = [Timer id r (Some 1000) tick_duration] →
       (∀ t, t ∈ timers s1 → timer_callback t ≠ tick_duration)
       ∧ ∀ k, k < 3000 →
           callDuration (elapse k s1) = callDuration s
           ∧ callStatus (elapse k s1) = call_ended).
Proof.
  unfold step.
  destruct (on_call_disconnect_frame s) as (Hst & _ & Hcall & Href & Hdur & Hts).
  cbv zeta. do 3 (split; [done|]).
  split.
  { intros id t Hid Ht Hcb. rewrite Hts, Hid in Ht.
    apply elem_of_app in Ht as [Ht|Ht].
    - by apply list_elem_of_filter in Ht as [? _].
    - apply list_elem_of_singleton in Ht. by subst t. }
  split; [done|].
  destruct (elapse_last 2999 (exec on_call_disconnect s) _ (nextTimer s)
              reset_after_call (or_introl eq_refl) Hts) as [Hidle Hzero].
  split; [done|]. split; [by apply Hzero|].
  intros id r Hid Hone. rewrite Hid, Hone in Hts.
  rewrite filter_cons_False, filter_nil in Hts by (simpl; tauto).
  simpl in Hts. split.
  { intros t Ht. rewrite Hts in Ht. apply list_elem_of_singleton in Ht.
    by subst t. }
  intros k Hk.
  rewrite (elapse_single_quiet k _ (nextTimer s) (2999 - k) None reset_after_call).
  - rewrite <- Hdur, <- Hst. by destruct (exec on_call_disconnect s).
  - rewrite Hts. do 2 f_equal. lia.
Qed.
Lemma disconnect_ends_call_witness :
  callStatus twelve_seconds_in = in_call
  ∧ callDuration twelve_seconds_in = 12
  ∧ callStatus (step CallDisconnect twelve_seconds_in) = call_ended
  ∧ (∀ k, k < 3000 →
       callDuration (elapse k (step CallDisconnect twelve_seconds_in)) = 12
       ∧ callStatus (elapse k (step CallDisconnect twelve_seconds_in)) = call_ended)
  ∧ callStatus (elapse 3000 (step CallDisconnect twelve_seconds_in)) = idle
  ∧ callDuration (elapse 3000 (step CallDisconnect twelve_seconds_in)) = 0.
Proof.
  assert (timerRef twelve_seconds_in = Some 1) as Href
    by (vm_compute; reflexivity).
  assert (timers twelve_seconds_in = [Timer 1 1000 (Some 1000) tick_duration])
    as Hts by (vm_compute; reflexivity).
  assert (callDuration twelve_seconds_in = 12) as Hdur
    by (vm_compute; reflexivity).
  pose proof (disconnect_ends_call twelve_seconds_in) as H. cbv zeta in H.
  destruct H as (Hst & _ & _ & _ & _ & Hidle & Hzero & Hquiet).
  destruct (Hquiet 1 1000 Href Hts) as [_ Hkeep].
  split; [vm_compute; reflexivity|]. split; [exact Hdur|].
  split; [exact Hst|]. split; [|split; [exact Hidle | exact Hzero]].
  intros k Hk. destruct (Hkeep k Hk) as [Hsame Hended].
  split; [rewrite Hsame; exact Hdur | exact Hended].
Defined.

(** ** Reset while a call is in progress *)

Lemma reset_frame s :
  timerRef (exec resetConfiguration s) = timerRef s
  ∧ timers (exec resetConfiguration s) = timers s
  ∧ currentCallRef (exec resetConfiguration s) = currentCallRef s
  ∧ calls (exec resetConfiguration s) = calls s
  ∧ callDuration (exec resetConfiguration s) = callDuration s.
Proof. destruct s as [? ? ? ? ? ? ? ? ? ? [d|] ? ? ? ? ? ? ?]; repeat split; reflexivity. Qed.

Lemma reset_clears s :
  let s' := exec resetConfiguration s in
  accountSid s' = [] ∧ apiKey s' = [] ∧ apiSecret s' = [] ∧ appSid s' = []
     ∧ localStorage s' = None ∧ isConfigured s' = false ∧ callStatus s' = idle
     ∧ deviceRef s' = None.
Proof. destruct s as [? ? ? ? ? ? ? ? ? ? [d|] ? ? ? ? ? ? ?]; repeat split; reflexivity. Qed.

Lemma reset_destroys s d :
  deviceRef s = Some d → d < length (devices s) →
  devices (exec resetConfiguration s) !! d = Some Destroyed.
Proof.
  intros Hd Hlt.
  assert (devices (exec resetConfiguration s) = <[d:=Destroyed]> (devices s)) as ->.
  { destruct s; simpl in Hd; subst; reflexivity. }
  apply list_lookup_insert_eq. exact Hlt.
Qed.

Lemma tick_duration_goes_on s id n :
  timers s = [Timer id (S n) (Some 1000) tick_duration] →
  callDuration (elapse (S n) s) = callDuration s + 1
  ∧ timers (elapse (S n) s) = [Timer id 1000 (Some 1000) tick_duration].
Proof.
  intros Hone.
  rewrite (elapse_single_due n _ id (Some 1000) tick_duration Hone).
  destruct s; split; reflexivity.
Qed.

(** C9. [resetConfiguration] empties the credentials, removes the saved
    entry, destroys the device it finds in [deviceRef], clears that
    reference and sets the status to [idle]; it leaves [timerRef], the
    pending timers, [currentCallRef], the call objects and the duration
    as they were.  A duration counter that was running therefore goes on
    counting after the reset. *)
Theorem reset_leaves_timer_and_call (s s' : state) :
  s' = exec resetConfiguration s →
  (timerRef s' = timerRef s ∧ timers s' = timers s
   ∧ currentCallRef s' = currentCallRef s ∧ calls s' = calls s
   ∧ callDuration s' = callDuration s)
  ∧ (accountSid s' = [] ∧ apiKey s' = [] ∧ apiSecret s' = [] ∧ appSid s' = []
     ∧ localStorage s' = None ∧ isConfigured s' = false)
  ∧ (deviceRef s' = None
     ∧ ∀ d, deviceRef s = Some d → d < length (devices s) →
         devices s' !! d = Some Destroyed)
  ∧ callStatus s' = idle
  ∧ (∀ id n, timers s = [Timer id (S n) (Some 1000) tick_duration] →
       callDuration (elapse (S n) s') = callDuration s + 1
       ∧ timers (elapse (S n) s') = [Timer id 1000 (Some 1000) tick_duration]).
Proof.
  intros ->.
  pose proof (reset_frame s) as (Href & Hts & Hcall & Hcalls & Hdur).
  pose proof (reset_clears s) as (Ha & Hk & Hx & Hp & Hls & Hc & Hst & Hdev).
  split; [tauto|]. split; [tauto|].
  split; [split; [exact Hdev | apply reset_destroys]|].
  split; [exact Hst|].
  intros id n Hone. rewrite <- Hts in Hone. rewrite <- Hdur.
  exact (tick_duration_goes_on _ id n Hone).
Qed.

Lemma reset_leaves_timer_and_call_witness :
  callStatus twelve_seconds_in = in_call
  ∧ step ClickReset twelve_seconds_in = exec resetConfiguration twelve_seconds_in
  ∧ timerRef (exec resetConfiguration twelve_seconds_in)
    = timerRef twelve_seconds_in
  ∧ timers (exec resetConfiguration twelve_seconds_in) = timers twelve_seconds_in
  ∧ currentCallRef (exec resetConfiguration twelve_seconds_in)
    = currentCallRef twelve_seconds_in
  ∧ calls (exec resetConfiguration twelve_seconds_in) = calls twelve_seconds_in
  ∧ callStatus (exec resetConfiguration twelve_seconds_in) = idle
  ∧ callDuration (elapse 1000 (exec resetConfiguration twelve_seconds_in))
    = callDuration twelve_seconds_in + 1.
Proof.
  assert (timers twelve_seconds_in = [Timer 1 1000 (Some 1000) tick_duration])
    as Hts by (vm_compute; reflexivity).
  pose proof (reset_leaves_timer_and_call twelve_seconds_in _ eq_refl)
    as ((Href & Htimers & Hcall & Hcalls & _) & _ & _ & Hidle & Hrun).
  pose proof (Hrun 1 999 Hts) as [Hdur _].
  split; [vm_compute; reflexivity|]. split; [vm_compute; reflexivity|].
  split; [exact Href|]. split; [exact Htimers|]. split; [exact Hcall|].
  split; [exact Hcalls|]. split; [exact Hidle | exact Hdur].
Defined.

(** ** Loading the saved credentials *)

Lemma placeholder_test a k p :
  a = Some placeholder ∨ k = Some placeholder ∨ p = Some placeholder →
  is_placeholder a || is_placeholder k || is_placeholder p = true.
Proof.
  unfold is_placeholder. rewrite !orb_true_iff, !bool_decide_eq_true. tauto.
Qed.

(** C2, as amended. When the saved entry has all four fields non-empty and
    its account, key or application identifier is the masked value "***",
    the mount effect clears: the entry is removed, the four fields in
    memory are empty and the page is not configured. *)
Theorem placeholder_triggers_clear
    (s : state) (a k x p : option jsstring) :
  localStorage s = Some (Stored a k x p) →
  present a = true → present k = true → present x = true → present p = true →
  a = Some placeholder ∨ k = Some placeholder ∨ p = Some placeholder →
  cleared (step Mount s)
  ∧ showConfigForm (step Mount s) = true
  ∧ statusMessage (step Mount s) = lit "Please enter valid Twilio credentials".
Proof.
  intros Hs Ha Hk Hx Hp Hph. apply placeholder_test in Hph.
  destruct s; simpl in Hs; subst.
  unfold cleared. run_handler. rewrite Ha, Hk, Hx, Hp, Hph.
  repeat split; reflexivity.
Qed.

Lemma placeholder_triggers_clear_witness :
  cleared (step Mount (initial (Some masked_account))).
Proof.
  apply (placeholder_triggers_clear (initial (Some masked_account))
           (Some placeholder) (Some (c_apiKey demo_credentials))
           (Some (c_apiSecret demo_credentials))
           (Some (c_appSid demo_credentials)));
    [reflexivity | reflexivity | reflexivity | reflexivity | reflexivity
    | left; reflexivity].
Defined.

(** C2, as stated, fails twice.  A saved secret equal to "***" is not
    looked at: the entry stays, the secret is loaded and the page is
    marked configured.  And a masked account identifier next to a missing
    application identifier never reaches the test: the entry stays and
    "***" is loaded into the form. *)
Lemma masked_fields_not_cleared :
  (let s := step Mount (initial (Some masked_secret)) in
   localStorage s = Some masked_secret ∧ apiSecret s = placeholder
   ∧ isConfigured s = true ∧ ¬ cleared s)
  ∧ (let s := step Mount (initial (Some masked_account_no_app)) in
     localStorage s = Some masked_account_no_app ∧ accountSid s = placeholder
     ∧ ¬ cleared s).
Proof.
  split; cbv zeta.
  - do 3 (split; [vm_compute; reflexivity|]).
    intros (H & _). vm_compute in H. discriminate.
  - do 2 (split; [vm_compute; reflexivity|]).
    intros (H & _). vm_compute in H. discriminate.
Qed.

(** ** Configure *)

Lemma probe_error_None r : probe_error r = None ↔ probe_succeeds r.
Proof.
  unfold probe_succeeds. destruct r as [e|resp]; simpl.
  - split; [discriminate | by intros (? & ? & _)].
  - destruct (ok resp) eqn:Hok; simpl.
    + split; [eauto | done].
    + split.
      * destruct (json resp); discriminate.
      * intros (? & [= <-] & ?). congruence.
Qed.

Lemma missing_field_incomplete c :
  trim (c_accountSid c) = [] ∨ trim (c_apiKey c) = []
  ∨ trim (c_apiSecret c) = [] ∨ trim (c_appSid c) = [] →
  areCredentialsComplete c = false.
Proof.
  intros H. destruct (areCredentialsComplete c) eqn:E; [exfalso | done].
  apply areCredentialsComplete_true in E as ((? & ? & ? & ?) & _).
  tauto.
Qed.

(** The click alone never saves and never marks the page configured. *)
Lemma handleConfigure_frame c s :
  localStorage (exec (handleConfigure c) s) = localStorage s
  ∧ isConfigured (exec (handleConfigure c) s) = isConfigured s.
Proof.
  destruct s. unfold handleConfigure.
  destruct (areCredentialsComplete c); split; reflexivity.
Qed.

Lemma configure_rejected c probe s :
  areCredentialsComplete c = false ∨ ¬ probe_succeeds probe →
  localStorage (configure c probe s) = localStorage s
  ∧ isConfigured (configure c probe s) = isConfigured s
  ∧ (isLoading s = false →
     configure c probe s
     = with_statusMessage (statusMessage (configure c probe s)) s).
Proof.
  intros H. unfold configure, handleConfigure.
  destruct (areCredentialsComplete c) eqn:Hc; simpl.
  - destruct H as [H|H]; [done|].
    unfold handleConfigure_settled.
    destruct (probe_error probe) as [e|] eqn:He.
    + destruct s; simpl. repeat split. intros ->. reflexivity.
    + by apply probe_error_None in He.
  - destruct s; simpl. repeat split.
Qed.

Lemma configure_accepted c probe s :
  areCredentialsComplete c = true → probe_succeeds probe →
  localStorage (configure c probe s)
  = Some (Stored (Some (c_accountSid c)) (Some (c_apiKey c))
                 (Some (c_apiSecret c)) (Some (c_appSid c)))
  ∧ isConfigured (configure c probe s) = true.
Proof.
  intros Hc Hp. apply probe_error_None in Hp.
  unfold configure, handleConfigure, handleConfigure_settled, initializeDevice.
  rewrite Hc, Hp.
  destruct s as [? ? ? ? ? ? ? ? ? ? [d|] ? ? ? ? ? ? ?]; split; reflexivity.
Qed.

(** C3. [handleConfigure] saves the credential set and marks the page
    configured when the set passes [areCredentialsComplete] and the probe
    comes back with a 2xx response, and only then.  When a field is
    missing, the set fails the format rules or the probe fails, the saved
    entry and [isConfigured] are what they were (so a page that was not
    configured stays so), and on a page whose Configure button was
    enabled ([isLoading] false) nothing but the status message differs. *)
Theorem configure_atomic (s : state) (c : credentials) (probe : fetch_result) :
  (areCredentialsComplete c = true → probe_succeeds probe →
     localStorage (configure c probe s)
     = Some (Stored (Some (c_accountSid c)) (Some (c_apiKey c))
                    (Some (c_apiSecret c)) (Some (c_appSid c)))
     ∧ isConfigured (configure c probe s) = true)
  ∧ (trim (c_accountSid c) = [] ∨ trim (c_apiKey c) = []
     ∨ trim (c_apiSecret c) = [] ∨ trim (c_appSid c) = []
     ∨ areCredentialsComplete c = false ∨ ¬ probe_succeeds probe →
     localStorage (configure c probe s) = localStorage s
     ∧ isConfigured (configure c probe s) = isConfigured s
     ∧ (isConfigured s = false → isConfigured (configure c probe s) = false)
     ∧ (isLoading s = false →
        configure c probe s
        = with_statusMessage (statusMessage (configure c probe s)) s))
  ∧ (localStorage (configure c probe s) ≠ localStorage s
     ∨ isConfigured (configure c probe s) ≠ isConfigured s →
     areCredentialsComplete c = true ∧ probe_succeeds probe).
Proof.
  assert (areCredentialsComplete c = false ∨ ¬ probe_succeeds probe →
          localStorage (configure c probe s) = localStorage s
          ∧ isConfigured (configure c probe s) = isConfigured s
          ∧ (isConfigured s = false → isConfigured (configure c probe s) = false)
          ∧ (isLoading s = false →
             configure c probe s
             = with_statusMessage (statusMessage (configure c probe s)) s))
    as Hrej.
  { intros H. destruct (configure_rejected c probe s H) as (H1 & H2 & H3).
    split; [exact H1|]. split; [exact H2|]. split; [congruence | exact H3]. }
  split; [apply configure_accepted|]. split.
  - intros H. apply Hrej.
    destruct H as [H|[H|[H|[H|[H|H]]]]]; [left; apply missing_field_incomplete; tauto..| |];
      tauto.
  - intros Hchg.
    destruct (areCredentialsComplete c) eqn:Hc.
    + destruct (probe_error probe) as [e|] eqn:He.
      * assert (¬ probe_succeeds probe) as Hno.
        { intros Hp. apply probe_error_None in Hp. congruence. }
        destruct (Hrej (or_intror Hno)) as (H1 & H2 & _). tauto.
      * split; [reflexivity | by apply probe_error_None].
    + destruct (Hrej (or_introl eq_refl)) as (H1 & H2 & _). tauto.
Qed.

Lemma configure_atomic_witness :
  (localStorage (configure demo_credentials token_200 form_filled)
   = Some (Stored (Some (c_accountSid demo_credentials))
                  (Some (c_apiKey demo_credentials))
                  (Some (c_apiSecret demo_credentials))
                  (Some (c_appSid demo_credentials)))
   ∧ isConfigured (configure demo_credentials token_200 form_filled) = true)
  ∧ (localStorage (configure demo_credentials error_400 form_filled) = None
     ∧ isConfigured (configure demo_credentials error_400 form_filled) = false
     ∧ configure demo_credentials error_400 form_filled
       = with_statusMessage
           (statusMessage (configure demo_credentials error_400 form_filled))
           form_filled)
  ∧ (localStorage (configure blank_secret token_200 form_filled) = None
     ∧ isConfigured (configure blank_secret token_200 form_filled) = false).
Proof.
  pose proof (configure_atomic form_filled demo_credentials token_200)
    as (Hok & _ & _).
  pose proof (configure_atomic form_filled demo_credentials error_400)
    as (_ & Hfail & _).
  pose proof (configure_atomic form_filled blank_secret token_200)
    as (_ & Hblank & _).
  split; [|split].
  - apply Hok; [vm_compute; reflexivity|].
    eexists. split; [reflexivity | vm_compute; reflexivity].
  - assert (¬ probe_succeeds error_400) as Hno.
    { intros (resp & [= <-] & Hresp). vm_compute in Hresp. discriminate. }
    destruct (Hfail (or_intror (or_intror (or_intror (or_intror (or_intror Hno))))))
      as (H1 & H2 & H3 & H4).
    split; [rewrite H1; vm_compute; reflexivity|].
    split; [apply H3; vm_compute; reflexivity|].
    apply H4. vm_compute. reflexivity.
  - assert (trim (c_apiSecret blank_secret) = []) as Hempty
      by (vm_compute; reflexivity).
    destruct (Hblank (or_intror (or_intror (or_introl Hempty))))
      as (H1 & _ & H3 & _).
    split; [rewrite H1; vm_compute; reflexivity|].
    apply H3. vm_compute. reflexivity.
Defined.

(** ** One device at a time *)

Lemma initializeDevice_sync c s :
  areCredentialsComplete c = true →
  ∃ s1, initializeDevice c s = (true, s1)
    ∧ devices s1 = teardown s ∧ deviceRef s1 = None.
Proof.
  intros Hc. unfold initializeDevice, teardown. rewrite Hc.
  destruct s as [? ? ? ? ? ? ? ? ? ? [d|] ? ? ? ? ? ? ?];
    eexists; (split; [reflexivity|]); split; reflexivity.
Qed.

Lemma initializeDevice_fetched_token r token s :
  token_of r = inr token →
  ∃ s2, initializeDevice_fetched r s = (Some (length (devices s)), s2)
    ∧ devices s2 = devices s ++ [Unregistered] ∧ deviceRef s2 = deviceRef s.
Proof.
  intros Hr. unfold initializeDevice_fetched. rewrite Hr.
  destruct s; eexists; (split; [reflexivity|]); split; reflexivity.
Qed.

Lemma registered_event s l :
  devices s = l ++ [Unregistered] →
  devices (exec (Device_registered (length l) ;; on_device_registered) s)
  = l ++ [Registered]
  ∧ deviceRef (exec (Device_registered (length l) ;; on_device_registered) s)
    = deviceRef s.
Proof.
  intros H.
  assert (devices (exec (Device_registered (length l) ;; on_device_registered) s)
          = alter (λ st, match st with Unregistered => Registered | _ => st end)
              (length l) (devices s)
          ∧ deviceRef (exec (Device_registered (length l) ;; on_device_registered) s)
            = deviceRef s) as [-> ->] by (destruct s; split; reflexivity).
  split; [|reflexivity].
  rewrite H. rewrite <- (Nat.add_0_r (length l)) at 1. by rewrite alter_app_r.
Qed.

Lemma registered_stored d s :
  devices (exec (initializeDevice_registered d) s) = devices s
  ∧ deviceRef (exec (initializeDevice_registered d) s) = Some d.
Proof. destruct s; split; reflexivity. Qed.

Lemma length_teardown s : length (teardown s) = length (devices s).
Proof. unfold teardown. destruct (deviceRef s); [apply length_insert | done]. Qed.

Lemma teardown_destroys s d :
  deviceRef s = Some d → d < length (devices s) →
  teardown s !! d = Some Destroyed.
Proof.
  intros Hd Hlt. unfold teardown. rewrite Hd. by apply list_lookup_insert_eq.
Qed.

Lemma initializeDevice_catch_frame e s :
  devices (exec (initializeDevice_catch e) s) = devices s
  ∧ deviceRef (exec (initializeDevice_catch e) s) = deviceRef s
  ∧ callStatus (exec (initializeDevice_catch e) s) = error.
Proof. destruct s; repeat split; reflexivity. Qed.

(** One uninterrupted invocation that gets its token and whose
    registration is rejected: the device it built is left as it was
    built, and [deviceRef] stays empty. *)
Lemma initializeDevice_rejected c r token e s :
  areCredentialsComplete c = true → token_of r = inr token →
  ∃ s1 s2 s3,
    initializeDevice_instants c r (RegisterRejects e) s = [s1; s2; s3]
    ∧ (devices s1 = teardown s ∧ deviceRef s1 = None)
    ∧ devices s2 = teardown s ++ [Unregistered]
    ∧ devices s3 = teardown s ++ [Unregistered]
    ∧ deviceRef s3 = None
    ∧ callStatus s3 = error.
Proof.
  intros Hc Hr.
  destruct (initializeDevice_sync c s Hc) as (s1 & E1 & Hd1 & Href1).
  destruct (initializeDevice_fetched_token r token s1 Hr)
    as (s2 & E2 & Hd2 & Href2).
  destruct (initializeDevice_catch_frame e s2) as (Hd3 & Href3 & Hst3).
  exists s1, s2, (exec (initializeDevice_catch e) s2).
  split; [unfold initializeDevice_instants; rewrite E1, E2; reflexivity|].
  rewrite Hd1 in Hd2.
  split; [done|]. split; [done|]. split; [by rewrite Hd3|].
  split; [by rewrite Href3, Href2 | done].
Qed.

Section counting.
(** Whichever way an unregistered device is counted: a destroyed device
    is not alive, a registered one is. *)
Context (alive : device_state → bool).
Hypothesis alive_Destroyed : alive Destroyed = false.
Hypothesis alive_Registered : alive Registered = true.

Lemma filter_none_alive l :
  none_alive alive l → filter (λ st, alive st = true) l = [].
Proof.
  induction 1 as [|st l Hst _ IH]; [done|].
  rewrite filter_cons_False by congruence. exact IH.
Qed.

Lemma count_none_alive s :
  none_alive alive (devices s) → count_devices alive s = 0.
Proof. intros H. unfold count_devices. by rewrite filter_none_alive. Qed.

Lemma count_snoc s l st :
  devices s = l ++ [st] → none_alive alive l →
  count_devices alive s = (if alive st then 1 else 0).
Proof.
  intros Hdev Hl. unfold count_devices.
  rewrite Hdev, list.filter_app, filter_none_alive by done.
  destruct (alive st) eqn:Hst.
  - by rewrite filter_cons_True.
  - by rewrite filter_cons_False by congruence.
Qed.

Lemma owned_teardown s : owned alive s → none_alive alive (teardown s).
Proof.
  intros Hown. apply Forall_lookup. intros i st Hi.
  destruct (alive st) eqn:Halive; [exfalso | done].
  unfold teardown in Hi. destruct (deviceRef s) as [d|] eqn:Hd.
  - apply list_lookup_insert_Some in Hi as [(-> & <- & _) | (Hne & Hi)];
      [congruence|].
    specialize (Hown i st Hi Halive). congruence.
  - specialize (Hown i st Hi Halive). congruence.
Qed.

Lemma owned_snoc s l st :
  devices s = l ++ [st] → none_alive alive l →
  deviceRef s = Some (length l) → owned alive s.
Proof.
  intros Hdev Hl Href d st' Hd Halive. rewrite Href. f_equal.
  rewrite Hdev in Hd.
  apply lookup_snoc_Some in Hd as [[Hlt Hd] | [-> _]]; [|done].
  apply (proj1 (Forall_lookup _ _) Hl) in Hd. congruence.
Qed.

(** One uninterrupted invocation that gets its token and registers. *)
Lemma initializeDevice_once c r token s :
  areCredentialsComplete c = true → token_of r = inr token →
  owned alive s →
  ∃ s1 s2 s3 s4,
    initializeDevice_instants c r RegisterResolves s = [s1; s2; s3; s4]
    ∧ (devices s1 = teardown s ∧ deviceRef s1 = None
       ∧ count_devices alive s1 = 0)
    ∧ (devices s2 = teardown s ++ [Unregistered]
       ∧ count_devices alive s2 ≤ 1)
    ∧ (devices s3 = teardown s ++ [Registered]
       ∧ count_devices alive s3 = 1)
    ∧ (devices s4 = teardown s ++ [Registered]
       ∧ deviceRef s4 = Some (length (devices s))
       ∧ count_devices alive s4 = 1 ∧ owned alive s4).
Proof.
  intros Hc Hr Hown. pose proof (owned_teardown s Hown) as Hdead.
  destruct (initializeDevice_sync c s Hc) as (s1 & E1 & Hd1 & Href1).
  destruct (initializeDevice_fetched_token r token s1 Hr)
    as (s2 & E2 & Hd2 & Href2).
  rewrite Hd1 in Hd2, E2.
  destruct (registered_event s2 (teardown s) Hd2) as [Hd3 Href3].
  set (s3 := exec (Device_registered (length (teardown s))
                   ;; on_device_registered) s2) in *.
  destruct (registered_stored (length (teardown s)) s3) as [Hd4 Href4].
  set (s4 := exec (initializeDevice_registered (length (teardown s))) s3) in *.
  exists s1, s2, s3, s4.
  split; [unfold initializeDevice_instants; rewrite E1, E2; reflexivity|].
  rewrite Hd3 in Hd4. rewrite length_teardown in Href4.
  split.
  { split; [done|]. split; [done|]. apply count_none_alive. by rewrite Hd1. }
  split.
  { split; [done|]. rewrite (count_snoc s2 _ _ Hd2 Hdead).
    destruct (alive Unregistered); lia. }
  split.
  { split; [done|]. by rewrite (count_snoc s3 _ _ Hd3 Hdead), alive_Registered. }
  split; [done|]. split; [done|].
  split; [by rewrite (count_snoc s4 _ _ Hd4 Hdead), alive_Registered|].
  eapply owned_snoc; [done.. |]. by rewrite length_teardown.
Qed.

Lemma count_le_1 (l : list device_state) :
  (∀ i j x y, l !! i = Some x → l !! j = Some y →
     alive x = true → alive y = true → i = j) →
  length (filter (λ st, alive st = true) l) ≤ 1.
Proof.
  induction l as [|st l IH]; intros H; [simpl; lia|].
  destruct (alive st) eqn:Hst.
  - rewrite filter_cons_True by done. simpl.
    rewrite (filter_none_alive l); [simpl; lia|].
    apply Forall_lookup. intros i x Hi.
    destruct (alive x) eqn:Hx; [|done].
    specialize (H 0 (S i) st x eq_refl Hi Hst Hx). discriminate.
  - rewrite filter_cons_False by congruence. apply IH.
    intros i j x y Hi Hj Hx Hy.
    specialize (H (S i) (S j) x y Hi Hj Hx Hy). congruence.
Qed.

Lemma owned_count s : owned alive s → count_devices alive s ≤ 1.
Proof.
  intros Hown. apply count_le_1. intros i j x y Hi Hj Hx Hy.
  pose proof (Hown i x Hi Hx). pose proof (Hown j y Hj Hy). congruence.
Qed.

Lemma initializeDevice_incomplete c s :
  areCredentialsComplete c = false →
  ∃ s1, initializeDevice c s = (false, s1)
    ∧ devices s1 = devices s ∧ deviceRef s1 = deviceRef s.
Proof.
  intros Hc. unfold initializeDevice. rewrite Hc.
  destruct s; eexists; (split; [reflexivity|]); split; reflexivity.
Qed.

Lemma initializeDevice_fetched_error r e s :
  token_of r = inl e →
  ∃ s2, initializeDevice_fetched r s = (None, s2)
    ∧ devices s2 = devices s ∧ deviceRef s2 = deviceRef s.
Proof.
  intros Hr. unfold initializeDevice_fetched. rewrite Hr.
  destruct s; eexists; (split; [reflexivity|]); split; reflexivity.
Qed.

(** Whatever the credentials are, whatever the token request brings and
    however the registration settles, an uninterrupted invocation that
    starts with every device alive held in [deviceRef] never has two
    devices alive. *)
Lemma initializeDevice_at_most_one c r reg s :
  owned alive s →
  Forall (λ x, count_devices alive x ≤ 1) (initializeDevice_instants c r reg s).
Proof.
  intros Hown.
  destruct (areCredentialsComplete c) eqn:Hc.
  - destruct (token_of r) as [e|token] eqn:Hr.
    + destruct (initializeDevice_sync c s Hc) as (s1 & E1 & Hd1 & Href1).
      destruct (initializeDevice_fetched_error r e s1 Hr) as (s2 & E2 & Hd2 & _).
      unfold initializeDevice_instants. rewrite E1, E2.
      pose proof (owned_teardown s Hown) as Hdead.
      assert (count_devices alive s1 = 0) as H1
        by (apply count_none_alive; by rewrite Hd1).
      assert (count_devices alive s2 = 0) as H2
        by (apply count_none_alive; by rewrite Hd2, Hd1).
      repeat (constructor; [lia|]); constructor.
    + destruct reg as [|e].
      * destruct (initializeDevice_once c r token s Hc Hr Hown)
          as (s1 & s2 & s3 & s4 & -> & (_ & _ & H1) & (_ & H2) & (_ & H3)
              & (_ & _ & H4 & _)).
        repeat (constructor; [lia|]); constructor.
      * destruct (initializeDevice_rejected c r token e s Hc Hr)
          as (s1 & s2 & s3 & -> & (Hd1 & _) & Hd2 & Hd3 & _).
        pose proof (owned_teardown s Hown) as Hdead.
        assert (count_devices alive s1 = 0) as H1
          by (apply count_none_alive; by rewrite Hd1).
        assert (count_devices alive s2 ≤ 1) as H2.
        { rewrite (count_snoc s2 _ _ Hd2 Hdead). destruct (alive Unregistered); lia. }
        assert (count_devices alive s3 ≤ 1) as H3.
        { rewrite (count_snoc s3 _ _ Hd3 Hdead). destruct (alive Unregistered); lia. }
        repeat (constructor; [lia|]); constructor.
  - destruct (initializeDevice_incomplete c s Hc) as (s1 & E1 & Hd1 & Href1).
    unfold initializeDevice_instants. rewrite E1.
    assert (owned alive s1) as Hown1.
    { intros d st. rewrite Hd1, Href1. apply Hown. }
    pose proof (owned_count s1 Hown1). repeat (constructor; [lia|]); constructor.
Qed.

(** Two invocations that follow one another and both get their token and
    register, on a page where every device alive is the one in
    [deviceRef], whether alive means registered or merely not destroyed:
    at every instant at most one device is alive; each invocation
    destroys the device it finds in [deviceRef] and clears the reference
    before it constructs the next one; at the end exactly one device is
    alive, it is registered and it is the one in [deviceRef], and the
    device of the first invocation is destroyed. *)
Lemma initializeDevice_both_register (s : state) :
  owned alive s →
  ∀ (c : credentials) (r1 r2 : fetch_result) (t1 t2 : jsstring),
  areCredentialsComplete c = true →
  token_of r1 = inr t1 → token_of r2 = inr t2 →
  ∃ s1 s2 s3 s4 s5 s6 s7 s8,
    initializeDevice_instants c r1 RegisterResolves s = [s1; s2; s3; s4]
    ∧ initializeDevice_instants c r2 RegisterResolves s4 = [s5; s6; s7; s8]
    ∧ Forall (λ x, count_devices alive x ≤ 1) [s1; s2; s3; s4; s5; s6; s7; s8]
    ∧ ((∀ d, deviceRef s = Some d → d < length (devices s) →
          devices s1 !! d = Some Destroyed)
       ∧ deviceRef s1 = None ∧ length (devices s1) = length (devices s))
    ∧ (deviceRef s4 = Some (length (devices s))
       ∧ devices s4 !! length (devices s) = Some Registered)
    ∧ (devices s5 !! length (devices s) = Some Destroyed
       ∧ deviceRef s5 = None ∧ count_devices alive s5 = 0
       ∧ length (devices s5) = length (devices s4))
    ∧ (deviceRef s8 = Some (S (length (devices s)))
       ∧ devices s8 !! S (length (devices s)) = Some Registered
       ∧ devices s8 !! length (devices s) = Some Destroyed
       ∧ count_devices alive s8 = 1
       ∧ ∀ d st, devices s8 !! d = Some st → alive st = true →
           d = S (length (devices s))).
Proof.
  intros Hown c r1 r2 t1 t2 Hc Hr1 Hr2.
  destruct (initializeDevice_once c r1 t1 s Hc Hr1 Hown)
    as (s1 & s2 & s3 & s4 & E1 & (Hd1 & Href1 & Hl1) & (Hd2 & Hl2)
        & (Hd3 & Hl3) & (Hd4 & Href4 & Hl4 & Hown4)).
  destruct (initializeDevice_once c r2 t2 s4 Hc Hr2 Hown4)
    as (s5 & s6 & s7 & s8 & E2 & (Hd5 & Href5 & Hl5) & (Hd6 & Hl6)
        & (Hd7 & Hl7) & (Hd8 & Href8 & Hl8 & Hown8)).
  assert (length (devices s4) = S (length (devices s))) as Hlen4.
  { rewrite Hd4, length_app, length_teardown. simpl. lia. }
  assert (devices s4 !! length (devices s) = Some Registered) as Hreg4.
  { rewrite Hd4, <- (length_teardown s). apply list_lookup_middle. done. }
  assert (teardown s4 !! length (devices s) = Some Destroyed) as Hgone.
  { apply teardown_destroys; [done | lia]. }
  exists s1, s2, s3, s4, s5, s6, s7, s8.
  split; [done|]. split; [done|].
  split; [repeat (constructor; [lia|]); constructor|].
  split.
  { split; [|split; [done | by rewrite Hd1, length_teardown]].
    intros d Hd Hlt. rewrite Hd1. by apply teardown_destroys. }
  split; [done|].
  split.
  { split; [by rewrite Hd5|]. split; [done|]. split; [done|].
    by rewrite Hd5, length_teardown. }
  rewrite Hlen4 in Href8.
  split; [done|].
  split.
  { rewrite Hd8, <- Hlen4, <- (length_teardown s4). by apply list_lookup_middle. }
  split.
  { rewrite Hd8, lookup_app_l; [done|]. rewrite length_teardown. lia. }
  split; [done|].
  intros d st Hd Halive. specialize (Hown8 d st Hd Halive). congruence.
Qed.

End counting.

Lemma count_two (s : state) (l : list device_state) (st1 st2 : device_state) :
  devices s = (l ++ [st1]) ++ [st2] →
  is_alive st1 = true → is_alive st2 = true →
  2 ≤ count_devices is_alive s.
Proof.
  intros Hdev H1 H2. unfold count_devices.
  rewrite Hdev, !list.filter_app, !length_app.
  rewrite (filter_cons_True _ st1) by done.
  rewrite (filter_cons_True _ st2) by done.
  simpl. lia.
Qed.

(** C6. A device whose registration is rejected is neither destroyed nor
    stored, and the next invocation builds a second one beside it.  With
    complete credentials and a token, an invocation whose
    [device.register()] rejects ends in the [catch] block: the status is
    [error], [deviceRef] is still empty, and the device built inside the
    [try] is left as it was built.  The invocation that follows finds
    nothing in [deviceRef] and destroys nothing; from its [new Device]
    on, two devices that were never destroyed exist, and once the new one
    has registered and is stored, the one left behind is a device alive
    outside [deviceRef]. *)
Theorem rejected_register_leaves_device
    (s : state) (c : credentials) (r1 r2 : fetch_result) (t1 t2 : jsstring)
    (e : thrown) :
  areCredentialsComplete c = true →
  token_of r1 = inr t1 → token_of r2 = inr t2 →
  ∃ s1 s2 s3 s4 s5 s6 s7,
    initializeDevice_instants c r1 (RegisterRejects e) s = [s1; s2; s3]
    ∧ initializeDevice_instants c r2 RegisterResolves s3 = [s4; s5; s6; s7]
    ∧ (callStatus s3 = error ∧ deviceRef s3 = None
       ∧ devices s3 !! length (devices s) = Some Unregistered)
    ∧ devices s4 = devices s3
    ∧ (∀ x, x ∈ [s5; s6; s7] →
         devices x !! length (devices s) = Some Unregistered
         ∧ 2 ≤ count_devices is_alive x)
    ∧ deviceRef s7 = Some (S (length (devices s)))
    ∧ devices s7 !! S (length (devices s)) = Some Registered
    ∧ ¬ owned is_alive s7.
Proof.
  intros Hc Hr1 Hr2.
  destruct (initializeDevice_rejected c r1 t1 e s Hc Hr1)
    as (s1 & s2 & s3 & E1 & _ & _ & Hd3 & Href3 & Hst3).
  destruct (initializeDevice_sync c s3 Hc) as (s4 & E4 & Hd4 & Href4).
  assert (teardown s3 = devices s3) as Hsame
    by (unfold teardown; by rewrite Href3).
  rewrite Hsame in Hd4.
  destruct (initializeDevice_fetched_token r2 t2 s4 Hr2)
    as (s5 & E5 & Hd5 & Href5).
  destruct (registered_event s5 (devices s4) Hd5) as [Hd6 Href6].
  set (s6 := exec (Device_registered (length (devices s4))
                   ;; on_device_registered) s5) in *.
  destruct (registered_stored (length (devices s4)) s6) as [Hd7 Href7].
  set (s7 := exec (initializeDevice_registered (length (devices s4))) s6) in *.
  assert (length (devices s4) = S (length (devices s))) as Hlen.
  { rewrite Hd4, Hd3, length_app, length_teardown. simpl. lia. }
  assert (devices s3 !! length (devices s) = Some Unregistered) as Hleft.
  { rewrite Hd3, <- (length_teardown s). by apply list_lookup_middle. }
  assert (length (devices s) < length (devices s3)) as Hlt.
  { by eapply lookup_lt_Some. }
  rewrite Hd4 in Hd5, Hd6. rewrite Hd6 in Hd7.
  assert (∀ x st, devices x = devices s3 ++ [st] → is_alive st = true →
            devices x !! length (devices s) = Some Unregistered
            ∧ 2 ≤ count_devices is_alive x) as Htwo.
  { intros x st Hx Hst. split.
    - by rewrite Hx, lookup_app_l.
    - rewrite Hd3 in Hx. by apply (count_two x _ _ _ Hx). }
  exists s1, s2, s3, s4, s5, s6, s7.
  split; [exact E1|].
  split; [unfold initializeDevice_instants; rewrite E4, E5; reflexivity|].
  split; [done|]. split; [done|].
  split.
  { intros x Hx.
    apply elem_of_cons in Hx as [-> | Hx];
      [|apply elem_of_cons in Hx as [-> | Hx];
         [|apply list_elem_of_singleton in Hx as ->]].
    - by apply (Htwo s5 Unregistered).
    - by apply (Htwo s6 Registered).
    - by apply (Htwo s7 Registered). }
  rewrite Hlen in Href7.
  split; [exact Href7|].
  split.
  { rewrite Hd7, <- Hlen, Hd4. by apply list_lookup_middle. }
  intros Hown.
  assert (devices s7 !! length (devices s) = Some Unregistered) as H7
    by (by apply (Htwo s7 Registered)).
  specialize (Hown _ _ H7 eq_refl). rewrite Href7 in Hown.
  injection Hown. lia.
Qed.

Lemma rejected_register_leaves_device_witness :
  ∃ s3 s7,
    initializeDevice_instants demo_credentials token_200
      (RegisterRejects (ErrorObject (lit "AccessTokenInvalid"))) (initial None) !! 2
    = Some s3
    ∧ initializeDevice_instants demo_credentials token_200 RegisterResolves s3 !! 3
      = Some s7
    ∧ (callStatus s3 = error ∧ deviceRef s3 = None
       ∧ devices s3 !! 0 = Some Unregistered)
    ∧ (devices s7 !! 0 = Some Unregistered
       ∧ devices s7 !! 1 = Some Registered
       ∧ deviceRef s7 = Some 1
       ∧ 2 ≤ count_devices is_alive s7).
Proof.
  destruct (rejected_register_leaves_device (initial None) demo_credentials
              token_200 token_200
              (lit "eyJhbGciOiJIUzI1NiJ9.e30.c2ln")
              (lit "eyJhbGciOiJIUzI1NiJ9.e30.c2ln")
              (ErrorObject (lit "AccessTokenInvalid"))
              eq_refl eq_refl eq_refl)
    as (s1 & s2 & s3 & s4 & s5 & s6 & s7 & E1 & E2 & H3 & _ & Hall & Href7
        & Hreg7 & _).
  exists s3, s7. rewrite E1, E2.
  split; [reflexivity|]. split; [reflexivity|].
  split; [exact H3|].
  assert (s7 ∈ [s5; s6; s7]) as Hin by (do 2 right; left).
  destruct (Hall s7 Hin) as [Hleft Htwo].
  split; [exact Hleft|]. split; [exact Hreg7|].
  split; [exact Href7 | exact Htwo].
Defined.

(** The same on the page, event by event: after a configuration whose
    registration was rejected and a second one that registered, the page
    is ready to call with two devices that were never destroyed, of which
    [deviceRef] holds the second. *)
Lemma rejected_register_on_page :
  devices (run (take 9 rejected_then_reconfigured) (initial None)) = [Unregistered]
  ∧ deviceRef (run (take 9 rejected_then_reconfigured) (initial None)) = None
  ∧ callStatus (run (take 9 rejected_then_reconfigured) (initial None)) = error
  ∧ devices (run rejected_then_reconfigured (initial None))
    = [Unregistered; Registered]
  ∧ deviceRef (run rejected_then_reconfigured (initial None)) = Some 1
  ∧ callStatus (run rejected_then_reconfigured (initial None)) = idle
  ∧ count_devices is_alive (run rejected_then_reconfigured (initial None)) = 2
  ∧ count_devices is_registered (run rejected_then_reconfigured (initial None)) = 1.
Proof. repeat split; vm_compute; reflexivity. Qed.

End HomeSpec.

(** * The life of a page *)

Module Lifecycle.
Import Home HomeSpec.

(** ** What the clock can change *)

Lemma run_callback_display f s :
  beyond_display (exec (run_callback f) s) = beyond_display s
  ∧ (callStatus (exec (run_callback f) s) = callStatus s
     ∨ callStatus (exec (run_callback f) s) = idle).
Proof. destruct s, f; split; try reflexivity; auto. Qed.

Lemma fired_display l : ∀ s,
  beyond_display (foldl (λ s t, exec (run_callback (timer_callback t)) s) s l)
  = beyond_display s
  ∧ (callStatus (foldl (λ s t, exec (run_callback (timer_callback t)) s) s l)
     = callStatus s
     ∨ callStatus (foldl (λ s t, exec (run_callback (timer_callback t)) s) s l)
       = idle).
Proof.
  induction l as [|t l IH] using rev_ind; intros s; [auto|].
  rewrite foldl_app. simpl.
  destruct (IH s) as [Hb Hst].
  destruct (run_callback_display (timer_callback t)
    (foldl (λ s t, exec (run_callback (timer_callback t)) s) s l)) as [Hb' Hst'].
  split; [congruence|]. destruct Hst, Hst'; [left|right|right|right]; congruence.
Qed.

Lemma tick_display s :
  beyond_display (tick s) = beyond_display s
  ∧ (callStatus (tick s) = callStatus s ∨ callStatus (tick s) = idle).
Proof.
  unfold tick.
  destruct (fired_display (filter (λ t, is_due t = true) (age <$> timers s))
              (with_timers (omap rearm (age <$> timers s)) s)) as [Hb Hst].
  split.
  - rewrite Hb. by destruct s.
  - destruct Hst as [Hst|Hst]; [left|right]; rewrite Hst; by destruct s.
Qed.

Lemma elapse_display n : ∀ s,
  beyond_display (elapse n s) = beyond_display s
  ∧ (callStatus (elapse n s) = callStatus s ∨ callStatus (elapse n s) = idle).
Proof.
  induction n as [|n IH]; intros s; [auto|].
  simpl. destruct (IH (tick s)) as [Hb Hst], (tick_display s) as [Hb' Hst'].
  split; [congruence|]. destruct Hst, Hst'; [left|right|right|right]; congruence.
Qed.

(** ** How each status is entered *)

Ltac same_status s :=
  let H := fresh in
  intros H; exfalso; apply H; destruct s; reflexivity.

(** The status changes only as follows.  [connecting] is entered by a
    click on the enabled call button of an idle, configured page that
    holds a device; [in_call] by ['accept']; [call_ended] by
    ['disconnect'], ['cancel'] or ['reject']; [error] by an error of the
    device, of a call, of the call placement or of the initialization;
    [idle] by ['registered'], by a reset or by the clock. *)
Theorem status_transitions (e : event) (s : state) :
  callStatus (step e s) ≠ callStatus s → entered_by e s.
Proof.
  unfold entered_by. destruct e.
  - (* Mount *)
    intros H; exfalso; apply H. unfold step, exec, loadCredentials.
    destruct s as [? ? ? ? ? ? ? ? ? ? ? ? ? [[| |a k x p]|] ? ? ? ?];
      try reflexivity.
    cbv -[lit present is_placeholder or_empty orb andb].
    destruct (present a && present k && present x && present p);
      [destruct (is_placeholder a || is_placeholder k || is_placeholder p)|];
      reflexivity.
  - (* Unmount *)
    intros H; exfalso; apply H.
    destruct s as [? ? ? ? ? ? ? ? ? ? [d|] ? [t|] ? ? ? ? ?]; reflexivity.
  - same_status s.
  - same_status s.
  - same_status s.
  - same_status s.
  - same_status s.
  - (* ClickConfigure *)
    intros H; exfalso; apply H. unfold step.
    destruct (showConfigForm s && negb (isConfigureDisabled s)); [|done].
    unfold handleConfigure.
    destruct (areCredentialsComplete (closure s)); by destruct s.
  - (* ProbeSettled *)
    unfold step, handleConfigure_settled.
    destruct (probe_error r) as [x|]; [same_status s|].
    unfold initializeDevice.
    destruct (areCredentialsComplete c) eqn:Hc.
    + intros H; exfalso; apply H.
      destruct s as [? ? ? ? ? ? ? ? ? ? [d|] ? ? ? ? ? ? ?]; reflexivity.
    + intros _.
      replace (callStatus _) with error by (by destruct s).
      do 5 right. eauto.
  - (* TokenSettled *)
    unfold step, initializeDevice_fetched.
    destruct (token_of r) as [x|token] eqn:Hr.
    + intros _. replace (callStatus _) with error by (by destruct s).
      do 4 right. left. eauto.
    + same_status s.
  - same_status s.
  - (* RegisterRejected *)
    intros _. replace (callStatus _) with error by (by destruct s).
    do 3 right. left. eauto.
  - (* DeviceRegistered *)
    intros _. replace (callStatus _) with idle by (by destruct s). auto.
  - (* DeviceError *)
    intros _. replace (callStatus _) with error by (by destruct s). eauto.
  - same_status s.
  - (* ClickCall *)
    unfold step. destruct (isButtonDisabled s) eqn:Hdis; [done|].
    unfold handleButtonClick, makeCall, hangupCall.
    destruct s as [st ? ? ? ? ? ? ? conf ? [d|] [c|] ? ? ? ? ? ?];
      destruct st, conf; simpl; intros H; try (exfalso; by apply H);
      repeat split; eauto.
  - same_status s.
  - (* ConnectRejected *)
    intros _. replace (callStatus _) with error by (by destruct s). auto.
  - (* CallAccept *)
    intros _. by replace (callStatus _) with in_call by (by destruct s).
  - intros _. replace (callStatus _) with call_ended
      by (by destruct s as [? ? ? ? ? ? ? ? ? ? ? ? [t|] ? ? ? ? ?]). auto.
  - intros _. replace (callStatus _) with call_ended
      by (by destruct s as [? ? ? ? ? ? ? ? ? ? ? ? [t|] ? ? ? ? ?]). auto.
  - intros _. replace (callStatus _) with call_ended
      by (by destruct s as [? ? ? ? ? ? ? ? ? ? ? ? [t|] ? ? ? ? ?]). auto.
  - (* CallError *)
    intros _. replace (callStatus _) with error
      by (by destruct s as [? ? ? ? ? ? ? ? ? ? ? ? [t|] ? ? ? ? ?]). eauto.
  - (* ClickUpdateCredentials *)
    intros H; exfalso; apply H. unfold step.
    destruct (isConfigured s); by destruct s.
  - (* ClickReset *)
    unfold step. destruct (isConfigured s) eqn:Hconf; [|done].
    intros _. replace (callStatus _) with idle
      by (by destruct s as [? ? ? ? ? ? ? ? ? ? [d|] ? ? ? ? ? ? ?]). auto.
  - (* ClickClearInvalid *)
    intros H; exfalso; apply H. unfold step.
    destruct (isConfigured s); by destruct s.
  - (* Wait *)
    unfold step. destruct (elapse_display ms s) as [_ [Hst|Hst]]; [done|].
    intros _. rewrite Hst. eauto.
Qed.

Lemma status_transitions_witness : entered_by ClickCall ready.
Proof.
  apply (status_transitions ClickCall ready).
  intros H. vm_compute in H. discriminate.
Defined.

(** No callback of the SDK or of the clock and no continuation of
    [initializeDevice] or [makeCall] changes the four credential fields,
    the configured flag or the saved entry. *)
Theorem callbacks_keep_credentials (e : event) (s : state) :
  is_callback e = true → credential_part (step e s) = credential_part s.
Proof.
  destruct e; try discriminate; intros _; unfold step.
  - unfold initializeDevice_fetched. destruct (token_of r); by destruct s.
  - by destruct s.
  - by destruct s.
  - by destruct s.
  - by destruct s.
  - by destruct s.
  - by destruct s.
  - by destruct s.
  - by destruct s.
  - by destruct s as [? ? ? ? ? ? ? ? ? ? ? ? [t|] ? ? ? ? ?].
  - by destruct s as [? ? ? ? ? ? ? ? ? ? ? ? [t|] ? ? ? ? ?].
  - by destruct s as [? ? ? ? ? ? ? ? ? ? ? ? [t|] ? ? ? ? ?].
  - by destruct s as [? ? ? ? ? ? ? ? ? ? ? ? [t|] ? ? ? ? ?].
  - destruct (elapse_display ms s) as [Hb _].
    unfold beyond_display in Hb. congruence.
Qed.

Lemma callbacks_keep_credentials_witness :
  credential_part (step (CallError (lit "ConnectionError")) twelve_seconds_in)
  = credential_part twelve_seconds_in.
Proof. apply callbacks_keep_credentials. reflexivity. Defined.

(** In [error] a click on the call button does nothing, although on a
    configured page the button reads "Call Agent" and, with complete
    credentials and nothing loading, is enabled. *)
Theorem error_button_is_dead (s : state) :
  callStatus s = error →
  step ClickCall s = s
  ∧ (isConfigured s = true → getButtonText s = lit "Call Agent")
  ∧ (isConfigured s = true → isLoading s = false →
     areCredentialsComplete (closure s) = true → isButtonDisabled s = false).
Proof.
  intros Hst. split; [|split].
  - unfold step. destruct (isButtonDisabled s); [done|].
    destruct s as [st ? ? ? ? ? ? ? conf ? ? ? ? ? ? ? ? ?].
    simpl in Hst. subst st. by destruct conf.
  - intros Hc. unfold getButtonText. by rewrite Hc, Hst.
  - intros Hc Hl Hcomplete. unfold isButtonDisabled.
    by rewrite Hc, Hl, Hst, Hcomplete.
Qed.

Lemma error_button_is_dead_witness :
  step ClickCall (step (DeviceError (lit "ConnectionError")) ready)
  = step (DeviceError (lit "ConnectionError")) ready
  ∧ isButtonDisabled (step (DeviceError (lit "ConnectionError")) ready) = false.
Proof.
  pose proof (error_button_is_dead
                (step (DeviceError (lit "ConnectionError")) ready)) as H.
  assert (callStatus (step (DeviceError (lit "ConnectionError")) ready) = error)
    as Hst by (vm_compute; reflexivity).
  destruct (H Hst) as (Hdead & _ & Hen).
  split; [exact Hdead|].
  apply Hen; vm_compute; reflexivity.
Defined.

(** A click on the button of a call in progress only asks the call to
    disconnect: the page's own state is untouched until the call's
    ['disconnect'] arrives; without a stored call it does nothing. *)
Theorem hangup_only_asks (s : state) :
  callStatus s = in_call → isButtonDisabled s = false →
  step ClickCall s
  = match currentCallRef s with
    | Some c => with_calls (<[c := Disconnecting]> (calls s)) s
    | None => s
    end.
Proof.
  intros Hst Hen. unfold step. rewrite Hen.
  destruct s as [st ? ? ? ? ? ? ? conf ? ? [c|] ? ? ? ? ? ?];
    simpl in Hst; subst st; reflexivity.
Qed.

Lemma hangup_only_asks_witness :
  step ClickCall twelve_seconds_in
  = with_calls [Disconnecting] twelve_seconds_in.
Proof.
  rewrite (hangup_only_asks twelve_seconds_in);
    [vm_compute; reflexivity | vm_compute; reflexivity | vm_compute; reflexivity].
Defined.

(** ** The duration counter *)

Lemma lone_counter k : ∀ s id r,
  r < 1000 →
  timers s = [Timer id (S r) (Some 1000) tick_duration] →
  callDuration (elapse k s) = callDuration s + (k + (999 - r)) / 1000
  ∧ callStatus (elapse k s) = callStatus s.
Proof.
  induction k as [|k IH]; intros s id r Hr Hts.
  - change (elapse 0 s) with s. rewrite Nat.div_small by lia. split; [lia | done].
  - change (elapse (S k) s) with (elapse k (tick s)).
    destruct r as [|r].
    + rewrite (tick_single_due s id (Some 1000) tick_duration Hts).
      set (s' := exec (run_callback tick_duration)
                   (with_timers [Timer id 1000 (Some 1000) tick_duration] s)).
      assert (timers s' = [Timer id (S 999) (Some 1000) tick_duration]
              ∧ callDuration s' = callDuration s + 1
              ∧ callStatus s' = callStatus s) as (Hts' & Hd' & Hst')
        by (subst s'; destruct s; repeat split; reflexivity).
      destruct (IH s' id 999 ltac:(lia) Hts') as [Hd Hst].
      rewrite Hd, Hst, Hd', Hst'. split; [|done].
      replace (S k + (999 - 0)) with (k + 1 * 1000) by lia.
      rewrite Nat.div_add by lia. replace (k + (999 - 999)) with k by lia. lia.
    + assert (tick s = with_timers [Timer id (S r) (Some 1000) tick_duration] s)
        as -> by (unfold tick; rewrite Hts; by destruct s).
      destruct (IH (with_timers [Timer id (S r) (Some 1000) tick_duration] s)
                  id r ltac:(lia)) as [Hd Hst]; [by destruct s|].
      rewrite Hd, Hst. split; [|by destruct s].
      replace (S k + (999 - S r)) with (k + (999 - r)) by lia. by destruct s.
Qed.

(** After ['accept'], on a page with no other timer pending, the duration
    shown is the number of whole seconds elapsed and the status stays
    [in_call], for as long as no other event arrives. *)
Theorem duration_counts_seconds (s : state) (ms : nat) :
  timers s = [] →
  callDuration (elapse ms (step CallAccept s)) = ms / 1000
  ∧ callStatus (elapse ms (step CallAccept s)) = in_call
  ∧ timerRef (step CallAccept s) = Some (nextTimer s).
Proof.
  intros Hts.
  assert (timers (step CallAccept s)
          = [Timer (nextTimer s) (S 999) (Some 1000) tick_duration]
          ∧ callDuration (step CallAccept s) = 0
          ∧ callStatus (step CallAccept s) = in_call
          ∧ timerRef (step CallAccept s) = Some (nextTimer s))
    as (Hts' & Hd & Hst & Href).
  { destruct s; simpl in Hts; subst. repeat split; reflexivity. }
  destruct (lone_counter ms (step CallAccept s) (nextTimer s) 999
              ltac:(lia) Hts') as [Hdur Hstat].
  rewrite Hdur, Hstat, Hd, Hst. split; [|done].
  replace (ms + (999 - 999)) with ms by lia. done.
Qed.

Lemma duration_counts_seconds_witness :
  callDuration (elapse 2500 (step CallAccept (run [ClickCall; ConnectResolved] ready)))
  = 2.
Proof.
  assert (timers (run [ClickCall; ConnectResolved] ready) = []) as Hts
    by (vm_compute; reflexivity).
  pose proof (duration_counts_seconds _ 2500 Hts) as [Hd _].
  rewrite Hd. vm_compute. reflexivity.
Defined.

(** ** Cancelled and rejected calls *)

Lemma on_call_ended_frame m s :
  callStatus (exec (on_call_ended m) s) = call_ended
  ∧ statusMessage (exec (on_call_ended m) s) = m
  ∧ currentCallRef (exec (on_call_ended m) s) = None
  ∧ timerRef (exec (on_call_ended m) s) = None
  ∧ callDuration (exec (on_call_ended m) s) = callDuration s
  ∧ timers (exec (on_call_ended m) s)
    = (match timerRef s with
       | Some id => filter (λ t, timer_id t ≠ id) (timers s)
       | None => timers s
       end) ++ [Timer (nextTimer s) 3000 None reset_after_call].
Proof.
  destruct s as [? ? ? ? ? ? ? ? ? ? ? ? [id|] ? ? ? ? ?]; by repeat split.
Qed.

(** ['cancel'] and ['reject'] end a call as ['disconnect'] does, under
    their own message: [call_ended], references cleared, the duration
    counter cancelled, and [idle] with duration 0 three seconds later. *)
Theorem cancel_and_reject_end_call (e : event) (s : state) :
  e = CallCancel ∨ e = CallReject →
  callStatus (step e s) = call_ended
  ∧ statusMessage (step e s)
    = (match e with
       | CallCancel => lit "Call cancelled"
       | _ => lit "Call rejected"
       end)
  ∧ currentCallRef (step e s) = None
  ∧ timerRef (step e s) = None
  ∧ (∀ id t, timerRef s = Some id → t ∈ timers (step e s) →
       timer_callback t = tick_duration → timer_id t ≠ id)
  ∧ callStatus (elapse 3000 (step e s)) = idle
  ∧ callDuration (elapse 3000 (step e s)) = 0.
Proof.
  intros He.
  assert (∃ m, step e s = exec (on_call_ended m) s
               ∧ m = (match e with
                      | CallCancel => lit "Call cancelled"
                      | _ => lit "Call rejected"
                      end)) as (m & -> & <-).
  { destruct He as [-> | ->]; eexists; split; reflexivity. }
  destruct (on_call_ended_frame m s) as (Hst & Hm & Hcall & Href & Hdur & Hts).
  do 4 (split; [done|]).
  split.
  { intros id t Hid Ht Hcb. rewrite Hts, Hid in Ht.
    apply elem_of_app in Ht as [Ht|Ht].
    - by apply list_elem_of_filter in Ht as [? _].
    - apply list_elem_of_singleton in Ht. by subst t. }
  destruct (elapse_last 2999 (exec (on_call_ended m) s) _ (nextTimer s)
              reset_after_call (or_introl eq_refl) Hts) as [Hidle Hzero].
  split; [done | by apply Hzero].
Qed.

Lemma cancel_and_reject_end_call_witness :
  callStatus (step CallReject twelve_seconds_in) = call_ended
  ∧ callDuration (elapse 3000 (step CallReject twelve_seconds_in)) = 0.
Proof.
  pose proof (cancel_and_reject_end_call CallReject twelve_seconds_in
                (or_intror eq_refl)) as (Hst & _ & _ & _ & _ & _ & Hzero).
  split; [exact Hst | exact Hzero].
Defined.

(** ** Unmount *)

Lemma unmount_effect s :
  devices (step Unmount s)
  = match deviceRef s with
    | Some d => <[d := Destroyed]> (devices s)
    | None => devices s
    end
  ∧ timers (step Unmount s)
    = match timerRef s with
      | Some id => filter (λ t, timer_id t ≠ id) (timers s)
      | None => timers s
      end.
Proof.
  destruct s as [? ? ? ? ? ? ? ? ? ? [d|] ? [t|] ? ? ? ? ?]; split; reflexivity.
Qed.

(** The cleanup run on unmount destroys the device in [deviceRef] and
    cancels the timer in [timerRef]; of the pending timers it cancels no
    other. *)
Theorem unmount_cleans_up (s : state) :
  (∀ d, deviceRef s = Some d → d < length (devices s) →
     devices (step Unmount s) !! d = Some Destroyed)
  ∧ (∀ id t, timerRef s = Some id → t ∈ timers (step Unmount s) →
       timer_id t ≠ id)
  ∧ (∀ t, t ∈ timers s → (∀ id, timerRef s = Some id → timer_id t ≠ id) →
       t ∈ timers (step Unmount s)).
Proof.
  destruct (unmount_effect s) as [Hdev Hts].
  split; [|split].
  - intros d Hd Hlt. rewrite Hdev, Hd. by apply list_lookup_insert_eq.
  - intros id t Hid Ht. rewrite Hts, Hid in Ht.
    by apply list_elem_of_filter in Ht as [? _].
  - intros t Ht Hne. rewrite Hts. destruct (timerRef s) as [id|]; [|done].
    apply list_elem_of_filter. split; [by apply Hne | done].
Qed.

Lemma unmount_cleans_up_witness :
  devices (step Unmount twelve_seconds_in) !! 0 = Some Destroyed
  ∧ timers (step Unmount twelve_seconds_in) = [].
Proof.
  pose proof (unmount_cleans_up twelve_seconds_in) as (Hdev & _ & _).
  split; [|vm_compute; reflexivity].
  apply Hdev; vm_compute; [reflexivity | lia].
Defined.

(** ** Clearing without reset *)

(** The Clear button empties the credentials and the saved entry and
    disables the call button, but, unlike a reset, leaves the device, the
    status, the call and the timers as they are. *)
Theorem clear_keeps_device (s : state) :
  isConfigured s = true →
  cleared (step ClickClearInvalid s)
  ∧ deviceRef (step ClickClearInvalid s) = deviceRef s
  ∧ devices (step ClickClearInvalid s) = devices s
  ∧ callStatus (step ClickClearInvalid s) = callStatus s
  ∧ callDuration (step ClickClearInvalid s) = callDuration s
  ∧ currentCallRef (step ClickClearInvalid s) = currentCallRef s
  ∧ calls (step ClickClearInvalid s) = calls s
  ∧ timerRef (step ClickClearInvalid s) = timerRef s
  ∧ timers (step ClickClearInvalid s) = timers s
  ∧ isButtonDisabled (step ClickClearInvalid s) = true.
Proof.
  intros Hc. unfold step. rewrite Hc. unfold cleared, isButtonDisabled.
  destruct s. simpl. rewrite !orb_true_r. repeat split.
Qed.

Lemma clear_keeps_device_witness :
  cleared (step ClickClearInvalid ready)
  ∧ deviceRef (step ClickClearInvalid ready) = Some 0
  ∧ devices (step ClickClearInvalid ready) = [Registered].
Proof.
  assert (isConfigured ready = true) as Hc by (vm_compute; reflexivity).
  pose proof (clear_keeps_device ready Hc) as (Hcl & Href & Hdev & _).
  split; [exact Hcl|]. split.
  - rewrite Href. vm_compute. reflexivity.
  - rewrite Hdev. vm_compute. reflexivity.
Defined.

(** ** Saving and loading *)

Lemma present_Some x : present (Some x) = truthy_string x.
Proof. reflexivity. Qed.

(** Saving then loading gives the four fields back, unless all four are
    non-empty and the account, key or application identifier is "***". *)
Theorem save_then_load (c : credentials) (s : state) :
  let s' := step Mount (exec (saveCredentialsToStorage c) s) in
  (c_accountSid c = [] ∨ c_apiKey c = [] ∨ c_apiSecret c = [] ∨ c_appSid c = []
   ∨ (c_accountSid c ≠ placeholder ∧ c_apiKey c ≠ placeholder
      ∧ c_appSid c ≠ placeholder) →
   closure s' = c
   ∧ localStorage s'
     = Some (Stored (Some (c_accountSid c)) (Some (c_apiKey c))
                    (Some (c_apiSecret c)) (Some (c_appSid c))))
  ∧ (c_accountSid c ≠ [] → c_apiKey c ≠ [] → c_apiSecret c ≠ [] →
     c_appSid c ≠ [] →
     c_accountSid c ≠ placeholder → c_apiKey c ≠ placeholder →
     c_appSid c ≠ placeholder →
     isConfigured s' = true ∧ statusMessage s' = lit "Ready to call").
Proof.
  cbv zeta. destruct c as [a k x p]. simpl.
  assert (∀ v : jsstring, is_placeholder (Some v) = false ↔ v ≠ placeholder)
    as Hph.
  { intros v. unfold is_placeholder. rewrite bool_decide_eq_false.
    split; intros H; congruence. }
  assert (∀ v : jsstring, present (Some v) = false ↔ v = []) as Hemp
    by (intros [|? ?]; split; done).
  assert (∀ v : jsstring, present (Some v) = true ↔ v ≠ []) as Hne
    by (intros [|? ?]; split; done).
  split.
  - intros H. destruct s.
    destruct a as [|a0 a'], k as [|k0 k'], x as [|x0 x'], p as [|p0 p'];
      try (split; reflexivity).
    destruct H as [H|[H|[H|[H|(H1 & H2 & H3)]]]]; try done.
    apply Hph in H1, H2, H3.
    unfold step, exec, saveCredentialsToStorage, loadCredentials, closure.
    cbv -[lit is_placeholder orb jsstring]. rewrite H1, H2, H3. split; reflexivity.
  - intros Ha Hk Hx Hp H1 H2 H3. apply Hph in H1, H2, H3.
    destruct s.
    destruct a as [|a0 a'], k as [|k0 k'], x as [|x0 x'], p as [|p0 p'];
      try done.
    unfold step, exec, saveCredentialsToStorage, loadCredentials.
    cbv -[lit is_placeholder orb jsstring]. rewrite H1, H2, H3. split; reflexivity.
Qed.

Lemma save_then_load_witness :
  closure (step Mount (exec (saveCredentialsToStorage demo_credentials)
                         (initial None)))
  = demo_credentials
  ∧ isConfigured (step Mount (exec (saveCredentialsToStorage demo_credentials)
                                (initial None))) = true.
Proof.
  pose proof (save_then_load demo_credentials (initial None)) as H.
  cbv zeta in H. destruct H as [Hload Hconf].
  split.
  - apply Hload. do 4 right. repeat split; discriminate.
  - apply Hconf; discriminate.
Defined.

(** A saved entry that is absent or empty only opens the form; a
    malformed one is removed as well; an incomplete one is loaded into the
    form and kept.  The mount effect marks a page configured only on an
    entry with four non-empty fields whose account, key and application
    identifiers are not "***". *)
Theorem unusable_entry_opens_form (s : state) :
  (localStorage s = None ∨ localStorage s = Some EmptyText →
   step Mount s = with_showConfigForm true s)
  ∧ (localStorage s = Some Malformed →
     step Mount s = with_showConfigForm true (with_localStorage None s))
  ∧ (∀ a k x p, localStorage s = Some (Stored a k x p) →
     present a && present k && present x && present p = false →
     step Mount s
     = with_showConfigForm true
         (with_appSid (or_empty p) (with_apiSecret (or_empty x)
           (with_apiKey (or_empty k) (with_accountSid (or_empty a) s)))))
  ∧ (isConfigured s = false → isConfigured (step Mount s) = true →
     ∃ a k x p, localStorage s = Some (Stored (Some a) (Some k) (Some x) (Some p))
       ∧ a ≠ [] ∧ k ≠ [] ∧ x ≠ [] ∧ p ≠ []
       ∧ a ≠ placeholder ∧ k ≠ placeholder ∧ p ≠ placeholder).
Proof.
  split; [|split; [|split]].
  - intros [H|H]; destruct s; simpl in H; subst; reflexivity.
  - intros H; destruct s; simpl in H; subst; reflexivity.
  - intros a k x p H Hinc. destruct s; simpl in H; subst.
    unfold step, exec, loadCredentials.
    cbv -[lit present is_placeholder or_empty orb andb].
    rewrite Hinc. reflexivity.
  - intros Hc. destruct s as [? ? ? ? ? ? ? ? ? ? ? ? ? [[| |a k x p]|] ? ? ? ?];
      simpl in Hc; subst; try (intros H; discriminate H).
    unfold step, exec, loadCredentials.
    cbv -[lit present is_placeholder or_empty orb andb].
    destruct (present a && present k && present x && present p) eqn:Hall;
      [|intros H; discriminate H].
    destruct (is_placeholder a || is_placeholder k || is_placeholder p) eqn:Hph;
      [intros H; discriminate H|].
    intros _.
    apply andb_true_iff in Hall as [Hall Hp].
    apply andb_true_iff in Hall as [Hall Hx].
    apply andb_true_iff in Hall as [Ha Hk].
    apply orb_false_iff in Hph as [Hph Hpp].
    apply orb_false_iff in Hph as [Hpa Hpk].
    destruct a as [a|], k as [k|], x as [x|], p as [p|]; try discriminate.
    exists a, k, x, p. split; [reflexivity|].
    unfold is_placeholder in *. apply bool_decide_eq_false in Hpa, Hpk, Hpp.
    repeat split; intros ->;
      first [ by apply Hpa | by apply Hpk | by apply Hpp
            | cbv in Ha; discriminate | cbv in Hk; discriminate
            | cbv in Hx; discriminate | cbv in Hp; discriminate ].
Qed.

Lemma unusable_entry_opens_form_witness :
  step Mount (initial (Some Malformed))
  = with_showConfigForm true (initial None)
  ∧ step Mount (initial None) = with_showConfigForm true (initial None).
Proof.
  pose proof (unusable_entry_opens_form (initial (Some Malformed)))
    as (_ & Hmal & _).
  pose proof (unusable_entry_opens_form (initial None)) as (Habs & _).
  split; [rewrite Hmal; reflexivity | apply Habs; left; reflexivity].
Defined.

(** ** Saved credentials do not bring a device *)

Lemma complete_fields c :
  areCredentialsComplete c = true →
  (c_accountSid c ≠ [] ∧ c_apiKey c ≠ [] ∧ c_apiSecret c ≠ [] ∧ c_appSid c ≠ [])
  ∧ (c_accountSid c ≠ placeholder ∧ c_apiKey c ≠ placeholder
     ∧ c_appSid c ≠ placeholder).
Proof.
  intros Hc. apply areCredentialsComplete_true in Hc
    as ((Ha & Hk & Hx & Hp) & ([ra Hra] & _) & ([rk Hrk] & _) & ([rp Hrp] & _)).
  split.
  - repeat split; intros E; rewrite E in *; done.
  - repeat split; intros E; rewrite E in *; discriminate.
Qed.

Lemma makeCall_without_device s :
  isButtonDisabled s = false → callStatus s = idle → deviceRef s = None →
  step ClickCall s = with_statusMessage (lit "Device not initialized") s.
Proof.
  intros Hen Hst Hd. unfold step. rewrite Hen.
  assert (isConfigured s = true) as Hc.
  { unfold isButtonDisabled in Hen. destruct (isConfigured s); [done|].
    simpl in Hen. by rewrite !orb_true_r in Hen. }
  destruct s. simpl in *. subst. reflexivity.
Qed.

Lemma mount_frame s :
  callStatus (step Mount s) = callStatus s
  ∧ isLoading (step Mount s) = isLoading s
  ∧ deviceRef (step Mount s) = deviceRef s
  ∧ devices (step Mount s) = devices s
  ∧ timers (step Mount s) = timers s.
Proof.
  unfold step, exec, loadCredentials.
  destruct s as [? ? ? ? ? ? ? ? ? ? ? ? ? [[| |a k x p]|] ? ? ? ?];
    try (repeat split; reflexivity).
  cbv -[lit present is_placeholder or_empty orb andb jsstring].
  destruct (present a && present k && present x && present p);
    [destruct (is_placeholder a || is_placeholder k || is_placeholder p)|];
    repeat split; reflexivity.
Qed.

(** Valid saved credentials make the page configured and enable the
    call button, but bring no device: until Configure is clicked, a click
    on "Call Agent" only says that the device is not initialized. *)
Theorem saved_credentials_need_configure (c : credentials) :
  areCredentialsComplete c = true →
  let s := step Mount (initial (Some
             (Stored (Some (c_accountSid c)) (Some (c_apiKey c))
                     (Some (c_apiSecret c)) (Some (c_appSid c))))) in
  isConfigured s = true ∧ closure s = c ∧ deviceRef s = None
  ∧ isButtonDisabled s = false
  ∧ getButtonText s = lit "Call Agent"
  ∧ step ClickCall s = with_statusMessage (lit "Device not initialized") s.
Proof.
  intros Hc s.
  destruct (complete_fields c Hc) as ((Ha & Hk & Hx & Hp) & (H1 & H2 & H3)).
  assert (∀ v : jsstring, v ≠ placeholder → is_placeholder (Some v) = false)
    as Hph.
  { intros v Hv. unfold is_placeholder. apply bool_decide_eq_false. congruence. }
  assert (isConfigured s = true ∧ closure s = c) as [Hcfg Hclosure].
  { subst s. destruct c as [a k x p].
    cbn [c_accountSid c_apiKey c_apiSecret c_appSid] in *.
    apply Hph in H1, H2, H3.
    destruct a as [|a0 a'], k as [|k0 k'], x as [|x0 x'], p as [|p0 p'];
      try done.
    unfold step, exec, loadCredentials, initial, closure.
    cbv -[lit is_placeholder orb jsstring]. rewrite H1, H2, H3.
    split; reflexivity. }
  destruct (mount_frame (initial (Some
             (Stored (Some (c_accountSid c)) (Some (c_apiKey c))
                     (Some (c_apiSecret c)) (Some (c_appSid c))))))
    as (Hst & Hl & Hdev & _). fold s in Hst, Hl, Hdev.
  simpl in Hst, Hl, Hdev.
  assert (isButtonDisabled s = false) as Hen.
  { unfold isButtonDisabled. by rewrite Hl, Hst, Hcfg, Hclosure, Hc. }
  split; [done|]. split; [done|]. split; [done|]. split; [done|].
  split; [unfold getButtonText; by rewrite Hcfg, Hst|].
  by apply makeCall_without_device.
Qed.

Lemma saved_credentials_need_configure_witness :
  isConfigured reloaded = true
  ∧ step ClickCall reloaded
    = with_statusMessage (lit "Device not initialized") reloaded.
Proof.
  pose proof (saved_credentials_need_configure demo_credentials eq_refl) as H.
  cbv zeta in H. destruct H as (Hc & _ & _ & _ & _ & Hclick).
  split; [exact Hc | exact Hclick].
Defined.

(** ** From Configure to a registered device *)

Lemma configure_ok c probe s :
  areCredentialsComplete c = true → probe_succeeds probe →
  configure c probe s
  = with_statusMessage (lit "Initializing Twilio Device...")
      (with_isLoading true
        (with_deviceRef None
          (with_devices (teardown s)
            (with_showConfigForm false
              (with_isConfigured true
                (with_localStorage
                  (Some (Stored (Some (c_accountSid c)) (Some (c_apiKey c))
                                (Some (c_apiSecret c)) (Some (c_appSid c))))
                  s)))))).
Proof.
  intros Hc Hp. apply probe_error_None in Hp.
  unfold configure, handleConfigure, handleConfigure_settled, initializeDevice.
  rewrite Hc, Hp.
  destruct s as [? ? ? ? ? ? ? ? ? ? [d|] ? ? ? ? ? ? ?]; reflexivity.
Qed.

Lemma token_settled_ok r token s :
  token_of r = inr token →
  step (TokenSettled r) s = with_devices (devices s ++ [Unregistered]) s.
Proof.
  intros Hr. unfold step, initializeDevice_fetched. rewrite Hr.
  destruct s; reflexivity.
Qed.

Lemma registered_then_resolved d s :
  step (RegisterResolved d) (step DeviceRegistered s)
  = with_deviceRef (Some d)
      (with_devices
         (alter (λ st, match st with Unregistered => Registered | _ => st end)
                d (devices s))
         (with_callStatus idle
            (with_isLoading false
               (with_statusMessage (lit "Device ready - Click to call agent")
                  s)))).
Proof. destruct s; reflexivity. Qed.

(** Configure with a valid set, a probe that succeeds, a token and a
    registration that succeeds: the set is saved, the form closed, the
    page loading in between, and at the end the page is [idle], not
    loading, with one new registered device in [deviceRef] and the call
    button enabled. *)
Theorem configure_reaches_ready
    (s : state) (c : credentials) (probe r : fetch_result) (token : jsstring) :
  areCredentialsComplete c = true → probe_succeeds probe →
  token_of r = inr token →
  let s1 := configure c probe s in
  let s4 := run [TokenSettled r; DeviceRegistered;
                 RegisterResolved (length (devices s))] s1 in
  (isLoading s1 = true ∧ isConfigured s1 = true ∧ showConfigForm s1 = false
   ∧ statusMessage s1 = lit "Initializing Twilio Device...")
  ∧ localStorage s4
    = Some (Stored (Some (c_accountSid c)) (Some (c_apiKey c))
                   (Some (c_apiSecret c)) (Some (c_appSid c)))
  ∧ isConfigured s4 = true ∧ showConfigForm s4 = false
  ∧ callStatus s4 = idle ∧ isLoading s4 = false
  ∧ statusMessage s4 = lit "Device ready - Click to call agent"
  ∧ deviceRef s4 = Some (length (devices s))
  ∧ devices s4 !! length (devices s) = Some Registered
  ∧ (closure s = c → isButtonDisabled s4 = false).
Proof.
  intros Hc Hp Hr s1 s4.
  assert (s4 = step (RegisterResolved (length (devices s)))
                 (step DeviceRegistered (step (TokenSettled r) s1))) as E4
    by reflexivity.
  rewrite (token_settled_ok r token s1 Hr), registered_then_resolved in E4.
  assert (s1 = configure c probe s) as E1 by reflexivity.
  rewrite (configure_ok c probe s Hc Hp) in E1.
  clearbody s1 s4. subst s1.
  assert (devices s4
          = alter (λ st, match st with Unregistered => Registered | _ => st end)
              (length (devices s)) (teardown s ++ [Unregistered])
          ∧ closure s4 = closure s
          ∧ localStorage s4
            = Some (Stored (Some (c_accountSid c)) (Some (c_apiKey c))
                           (Some (c_apiSecret c)) (Some (c_appSid c)))
          ∧ isConfigured s4 = true ∧ showConfigForm s4 = false
          ∧ callStatus s4 = idle ∧ isLoading s4 = false
          ∧ statusMessage s4 = lit "Device ready - Click to call agent"
          ∧ deviceRef s4 = Some (length (devices s)))
    as (Hdev & Hclo & H1 & H2 & H3 & H4 & H5 & H6 & H7)
    by (subst s4; destruct s; repeat split; reflexivity).
  split; [destruct s; repeat split; reflexivity|].
  do 7 (split; [assumption|]).
  split.
  { rewrite Hdev, <- (length_teardown s), <- (Nat.add_0_r (length (teardown s))).
    rewrite alter_app_r. simpl. rewrite Nat.add_0_r.
    by apply list_lookup_middle. }
  intros Hcl. unfold isButtonDisabled.
  by rewrite H5, H4, H2, Hclo, Hcl, Hc.
Qed.

Lemma configure_reaches_ready_witness :
  callStatus
    (run [TokenSettled token_200; DeviceRegistered; RegisterResolved 0]
       (configure demo_credentials token_200 form_filled)) = idle
  ∧ devices
      (run [TokenSettled token_200; DeviceRegistered; RegisterResolved 0]
         (configure demo_credentials token_200 form_filled)) !! 0
    = Some Registered.
Proof.
  assert (probe_succeeds token_200) as Hp
    by (eexists; split; [reflexivity | vm_compute; reflexivity]).
  pose proof (configure_reaches_ready form_filled demo_credentials token_200
                token_200 _ eq_refl Hp eq_refl) as H.
  cbv zeta in H.
  destruct H as (_ & _ & _ & _ & Hst & _ & _ & _ & Hdev & _).
  split; [exact Hst | exact Hdev].
Defined.

(** ** Trimming *)

Lemma trimStart_clean s : clean_start (trimStart s).
Proof.
  induction s as [|c s IH]; [done|]. simpl.
  destruct (is_whitespace c) eqn:Hc; [exact IH | exact Hc].
Qed.

Lemma trimStart_id s : clean_start s → trimStart s = s.
Proof. destruct s as [|c s]; [done|]. simpl. by intros ->. Qed.

Lemma trimStart_suffix s : ∃ pre, s = pre ++ trimStart s.
Proof.
  induction s as [|c s [pre IH]]; [by exists []|]. simpl.
  destruct (is_whitespace c).
  - exists (c :: pre). simpl. by rewrite <- IH.
  - by exists [].
Qed.

Lemma trimEnd_prefix s : ∃ post, s = trimEnd s ++ post.
Proof.
  destruct (trimStart_suffix (reverse s)) as [pre H].
  exists (reverse pre). unfold trimEnd. rewrite <- reverse_app, <- H.
  by rewrite reverse_involutive.
Qed.

Lemma trimEnd_id s : clean_start (reverse s) → trimEnd s = s.
Proof.
  intros H. unfold trimEnd. rewrite trimStart_id by done.
  apply reverse_involutive.
Qed.

Lemma trimEnd_clean_end s : clean_start (reverse (trimEnd s)).
Proof. unfold trimEnd. rewrite reverse_involutive. apply trimStart_clean. Qed.

Lemma trimEnd_clean_start s : clean_start s → clean_start (trimEnd s).
Proof.
  intros H. destruct (trimEnd_prefix s) as [post E].
  destruct (trimEnd s) as [|c t]; [done|].
  rewrite E in H. exact H.
Qed.

Lemma trim_idempotent s : trim (trim s) = trim s.
Proof.
  unfold trim at 1.
  rewrite (trimStart_id (trim s)).
  - apply trimEnd_id. unfold trim. apply trimEnd_clean_end.
  - unfold trim. apply trimEnd_clean_start, trimStart_clean.
Qed.

(** Only the trimmed fields count for validation; what is saved on success
    is the set as typed. *)
Theorem validation_sees_trimmed_fields (c : credentials) :
  areCredentialsComplete (trimmed c) = areCredentialsComplete c
  ∧ ∀ probe s, areCredentialsComplete (trimmed c) = true →
      probe_succeeds probe →
      localStorage (configure c probe s)
      = Some (Stored (Some (c_accountSid c)) (Some (c_apiKey c))
                     (Some (c_apiSecret c)) (Some (c_appSid c))).
Proof.
  assert (areCredentialsComplete (trimmed c) = areCredentialsComplete c) as E.
  { unfold areCredentialsComplete, trimmed. simpl. by rewrite !trim_idempotent. }
  split; [exact E|].
  intros probe s Hc Hp. rewrite E in Hc.
  by destruct (configure_accepted c probe s Hc Hp).
Qed.

Lemma validation_sees_trimmed_fields_witness :
  areCredentialsComplete padded_credentials = true
  ∧ localStorage (configure padded_credentials token_200 form_filled)
    = Some (Stored (Some (lit "  ACxxxxxxxxxxxxxxxxxxxxxxxxx "))
                   (Some (c_apiKey demo_credentials))
                   (Some (c_apiSecret demo_credentials))
                   (Some (c_appSid demo_credentials))).
Proof.
  pose proof (validation_sees_trimmed_fields padded_credentials) as [E Hsave].
  assert (areCredentialsComplete (trimmed padded_credentials) = true) as Ht
    by (vm_compute; reflexivity).
  split; [rewrite <- E; exact Ht|].
  apply Hsave; [exact Ht|].
  eexists. split; [reflexivity | vm_compute; reflexivity].
Defined.

(** ** The device heap under every event *)


(** ** One registered device along any run *)





(** ** Placing a call *)

(** A click on the enabled call button of an idle page that holds a
    device starts connecting and disables the button, so that a second
    click does nothing; when the connection resolves, the new call, and
    no other, is stored in [currentCallRef]. *)
Theorem click_places_call (s : state) (d : nat) :
  isButtonDisabled s = false → callStatus s = idle → deviceRef s = Some d →
  step ClickCall s
  = with_statusMessage (lit "Connecting...") (with_callStatus connecting s)
  ∧ isButtonDisabled (step ClickCall s) = true
  ∧ step ClickCall (step ClickCall s) = step ClickCall s
  ∧ currentCallRef (run [ClickCall; ConnectResolved] s)
    = Some (length (calls s))
  ∧ calls (run [ClickCall; ConnectResolved] s) = calls s ++ [Open].
Proof.
  intros Hen Hst Hd.
  assert (isConfigured s = true) as Hc.
  { unfold isButtonDisabled in Hen. destruct (isConfigured s); [done|].
    cbn [negb] in Hen. by rewrite !orb_true_r in Hen. }
  assert (step ClickCall s
          = with_statusMessage (lit "Connecting...")
              (with_callStatus connecting s)) as E.
  { unfold step. rewrite Hen.
    destruct s as [st ? ? ? ? ? ? ? conf ? dr ? ? ? ? ? ? ?].
    cbn [callStatus isConfigured deviceRef] in Hst, Hc, Hd. subst st conf dr.
    reflexivity. }
  assert (isButtonDisabled (step ClickCall s) = true) as Hdis.
  { rewrite E. unfold isButtonDisabled. destruct s.
    cbn [with_statusMessage with_callStatus callStatus isLoading].
    rewrite bool_decide_eq_true_2 by reflexivity. by rewrite orb_true_r. }
  split; [exact E|]. split; [exact Hdis|].
  split; [unfold step at 1; by rewrite Hdis|].
  change (run [ClickCall; ConnectResolved] s)
    with (step ConnectResolved (step ClickCall s)).
  rewrite E. destruct s; split; reflexivity.
Qed.

Lemma click_places_call_witness :
  callStatus (step ClickCall ready) = connecting
  ∧ currentCallRef (run [ClickCall; ConnectResolved] ready) = Some 0.
Proof.
  assert (isButtonDisabled ready = false) as Hen by (vm_compute; reflexivity).
  assert (callStatus ready = idle) as Hst by (vm_compute; reflexivity).
  assert (deviceRef ready = Some 0) as Hd by (vm_compute; reflexivity).
  pose proof (click_places_call ready 0 Hen Hst Hd) as (E & _ & _ & Hcall & _).
  split; [rewrite E; vm_compute; reflexivity|].
  rewrite Hcall. vm_compute. reflexivity.
Defined.

End Lifecycle.

(** * The duration on screen *)

Module Display.
Import Home HomeSpec.

(** ** The duration as shown *)

Lemma digits_value_acc d : ∀ acc,
  foldl (λ acc c, 10 * acc + (N.to_nat c - 48)) acc
        (lit (NilEmpty.string_of_uint d))
  = Nat.of_uint_acc d acc.
Proof.
  induction d as [|d IH|d IH|d IH|d IH|d IH|d IH|d IH|d IH|d IH|d IH];
    intros acc; [reflexivity|..];
    cbn [NilEmpty.string_of_uint lit foldl Nat.of_uint_acc];
    rewrite IH, Nat.tail_mul_spec; f_equal;
    change (N.to_nat (N_of_ascii _) - 48) with 0 + 0 || idtac;
    vm_compute (N.to_nat _ - 48); lia.
Qed.

Lemma digits_value_of_nat n : digits_value (Js.of_nat n) = n.
Proof.
  unfold digits_value, Js.of_nat, NilZero.string_of_uint.
  rewrite <- (Unsigned.of_to n) at 2. unfold Nat.of_uint.
  destruct (Nat.to_uint n) eqn:E; try apply digits_value_acc.
  reflexivity.
Qed.

Lemma length_padStart_2 s :
  length (padStart 2 (lit "0") s) = max 2 (length s).
Proof. by destruct s as [|a [|b [|c s]]]; simpl; try lia. Qed.

Lemma digits_value_padStart_2 s :
  digits_value (padStart 2 (lit "0") s) = digits_value s.
Proof. by destruct s as [|a [|b s]]. Qed.

Lemma of_nat_nonempty n : 1 ≤ length (Js.of_nat n).
Proof.
  unfold Js.of_nat, NilZero.string_of_uint.
  destruct (Nat.to_uint n); simpl; lia.
Qed.

Lemma short_numbers n : n < 100 → length (Js.of_nat n) ≤ 2.
Proof.
  intros Hn.
  assert (forallb (λ m, length (Js.of_nat m) <=? 2) (seq 0 100) = true) as H
    by (vm_compute; reflexivity).
  rewrite forallb_forall in H. apply Nat.leb_le, H, in_seq. lia.
Qed.

Lemma formatTime_parts n :
  ∃ m x, formatTime n = m ++ lit ":" ++ x
    ∧ length x = 2 ∧ 2 ≤ length m
    ∧ digits_value m = n / 60 ∧ digits_value x = n mod 60
    ∧ (n < 100 * 60 → length m = 2).
Proof.
  exists (padStart 2 (lit "0") (Js.of_nat (n / 60))),
         (padStart 2 (lit "0") (Js.of_nat (n mod 60))).
  split; [reflexivity|].
  rewrite !length_padStart_2, !digits_value_padStart_2, !digits_value_of_nat.
  assert (n mod 60 < 60) by (apply Nat.mod_upper_bound; lia).
  pose proof (short_numbers (n mod 60) ltac:(lia)).
  pose proof (of_nat_nonempty (n mod 60)).
  split; [lia|]. split; [lia|]. split; [done|]. split; [done|].
  intros Hn.
  assert (n / 60 < 100) by (apply Nat.Div0.div_lt_upper_bound; lia).
  pose proof (short_numbers (n / 60) ltac:(lia)).
  pose proof (of_nat_nonempty (n / 60)). lia.
Qed.

(** [formatTime] shows minutes and seconds that read back as the duration:
    two durations are never shown alike.  It takes at least five
    characters, and exactly five below 100 minutes. *)
Theorem formatTime_reads_back (n : nat) :
  unformatTime (formatTime n) = n
  ∧ (∀ m, formatTime n = formatTime m → n = m)
  ∧ 5 ≤ length (formatTime n)
  ∧ (n < 100 * 60 → length (formatTime n) = 5).
Proof.
  assert (∀ k, unformatTime (formatTime k) = k) as Hback.
  { intros k.
    destruct (formatTime_parts k) as (m & x & -> & Hx & Hm & Vm & Vx & _).
    unfold unformatTime. rewrite !length_app, Hx.
    change (length (lit ":")) with 1.
    replace (length m + (1 + 2) - 3) with (length m) by lia.
    replace (length m + (1 + 2) - 2) with (length m + 1) by lia.
    rewrite take_app_length.
    rewrite (app_assoc m), drop_app_length'
      by (rewrite length_app; reflexivity).
    rewrite Vm, Vx. symmetry. apply Nat.div_mod_eq. }
  split; [apply Hback|].
  split; [intros m E; rewrite <- (Hback n), <- (Hback m); by rewrite E|].
  destruct (formatTime_parts n) as (m & x & -> & Hx & Hm & _ & _ & Hshort).
  rewrite !length_app, Hx. change (length (lit ":")) with 1.
  split; [lia|]. intros Hn. rewrite (Hshort Hn). reflexivity.
Qed.

Lemma formatTime_reads_back_witness :
  formatTime 75 = lit "01:15" ∧ length (formatTime 75) = 5
  ∧ unformatTime (formatTime 75) = 75.
Proof.
  pose proof (formatTime_reads_back 75) as (Hback & _ & _ & Hlen).
  split; [vm_compute; reflexivity|].
  split; [apply Hlen; lia | exact Hback].
Defined.

End Display.

(** * The page and the endpoint together *)

Module EndToEnd.
Import Home HomeSpec Wire.

(** ** The answers of the endpoint *)

(** A response carries a token exactly when its status is 200, and then
    the token is what the signing library returned; every other response
    has status 400, 405 or 500 and a non-empty error message. *)
Theorem response_shape (sdk : TokenApi.AccessToken → TokenApi.sdk_result)
    (req : TokenApi.request) :
  match TokenApi.json (TokenApi.serve sdk req) with
  | TokenApi.TokenBody t i =>
      TokenApi.status (TokenApi.serve sdk req) = 200
      ∧ i = lit "web-client"
      ∧ sdk (TokenApi.token_for (TokenApi.req_body req)) = TokenApi.Jwt t
  | TokenApi.ErrorBody e =>
      (TokenApi.status (TokenApi.serve sdk req) = 400
       ∨ TokenApi.status (TokenApi.serve sdk req) = 405
       ∨ TokenApi.status (TokenApi.serve sdk req) = 500)
      ∧ e ≠ []
  end.
Proof.
  unfold TokenApi.serve, TokenApi.handler.
  destruct (negb (TokenApi.is_POST (TokenApi.method req))).
  { simpl. split; [auto | discriminate]. }
  cbv zeta.
  destruct (negb (truthy (TokenApi.accountSid (TokenApi.req_body req))) || _ || _ || _).
  { simpl. split; [auto | discriminate]. }
  change (TokenApi.addGrant _ _) with (TokenApi.token_for (TokenApi.req_body req)).
  destruct (sdk _) as [j|] eqn:Hsdk; simpl.
  - by repeat split.
  - split; [auto | discriminate].
Qed.

(** ** The page's requests at the endpoint *)

Lemma request_present c :
  TokenApi.all_present (TokenApi.req_body (request_of c))
  ↔ c_accountSid c ≠ [] ∧ c_apiKey c ≠ [] ∧ c_apiSecret c ≠ [] ∧ c_appSid c ≠ [].
Proof.
  unfold TokenApi.all_present, request_of. simpl.
  rewrite !truthy_string_true. tauto.
Qed.

Lemma complete_nonempty c :
  areCredentialsComplete c = true →
  c_accountSid c ≠ [] ∧ c_apiKey c ≠ [] ∧ c_apiSecret c ≠ [] ∧ c_appSid c ≠ [].
Proof.
  intros Hc. apply areCredentialsComplete_true in Hc as ((Ha & Hk & Hx & Hp) & _).
  repeat split; intros E; rewrite E in *; done.
Qed.

Lemma serve_request c sdk :
  TokenApi.all_present (TokenApi.req_body (request_of c)) →
  TokenApi.serve sdk (request_of c)
  = match sdk (TokenApi.token_for (TokenApi.req_body (request_of c))) with
    | TokenApi.Jwt jwt =>
        TokenApi.Response 200 (TokenApi.TokenBody jwt (lit "web-client"))
    | TokenApi.Throws =>
        TokenApi.Response 500
          (TokenApi.ErrorBody (lit "Failed to generate access token"))
    end.
Proof.
  intros Hall.
  destruct (TokenApiSpec.handler_signs (request_of c) eq_refl Hall)
    as (k & Hk & Hjwt & Hthrow).
  unfold TokenApi.serve. rewrite Hk.
  destruct (sdk _); [apply Hjwt | apply Hthrow].
Qed.

(** A set that passes the page's validation is never refused by the
    endpoint for a missing field or a wrong method; the endpoint itself
    asks for less: four non-empty strings. *)
Theorem validated_request_is_complete (c : credentials) :
  (areCredentialsComplete c = true →
   TokenApi.all_present (TokenApi.req_body (request_of c))
   ∧ ∀ sdk, TokenApi.status (TokenApi.serve sdk (request_of c)) = 200
            ∨ TokenApi.status (TokenApi.serve sdk (request_of c)) = 500)
  ∧ (TokenApi.all_present (TokenApi.req_body (request_of c))
     ↔ c_accountSid c ≠ [] ∧ c_apiKey c ≠ [] ∧ c_apiSecret c ≠ []
       ∧ c_appSid c ≠ [])
  ∧ (c_accountSid c = [] ∨ c_apiKey c = [] ∨ c_apiSecret c = []
     ∨ c_appSid c = [] →
     ∀ sdk, TokenApi.status (TokenApi.serve sdk (request_of c)) = 400).
Proof.
  split; [|split; [apply request_present|]].
  - intros Hc. apply complete_nonempty, request_present in Hc as Hall.
    split; [exact Hall|]. intros sdk. rewrite serve_request by exact Hall.
    destruct (sdk _); auto.
  - intros Hemp sdk.
    unfold TokenApi.serve.
    rewrite TokenApiSpec.handler_missing; [reflexivity | reflexivity |].
    unfold TokenApi.some_missing, TokenApi.missing, request_of. simpl.
    destruct Hemp as [-> | [-> | [-> | ->]]]; auto.
Qed.

Lemma validated_request_is_complete_witness :
  TokenApi.all_present (TokenApi.req_body (request_of demo_credentials))
  ∧ TokenApi.status (TokenApi.serve TokenApi.signing_sdk (request_of blank_secret))
    = 200
  ∧ areCredentialsComplete blank_secret = false.
Proof.
  pose proof (validated_request_is_complete demo_credentials) as (Hc & _ & _).
  destruct (Hc eq_refl) as [Hall _].
  split; [exact Hall|]. split; reflexivity.
Defined.

(** ** Configure and initialization against the endpoint *)

Lemma probe_of_answer statusText r :
  probe_succeeds (fetched statusText r)
  ↔ 200 ≤ TokenApi.status r ∧ TokenApi.status r ≤ 299.
Proof.
  unfold probe_succeeds, fetched, ok. split.
  - intros (resp & E & Hok). injection E as <-. cbn [status] in Hok.
    apply andb_true_iff in Hok as [H1 H2].
    apply Nat.leb_le in H1, H2. auto.
  - intros [H1 H2]. eexists. split; [reflexivity|]. cbn [status].
    apply andb_true_iff. by rewrite !Nat.leb_le.
Qed.

(** With the endpoint behind [fetch], Configure saves a validated set
    exactly when the signing library signs; when it throws, nothing is
    saved and the page shows the endpoint's message. *)
Theorem configure_against_endpoint
    (sdk : TokenApi.AccessToken → TokenApi.sdk_result)
    (statusText : jsstring) (c : credentials) (s : state) :
  areCredentialsComplete c = true →
  match sdk (TokenApi.token_for (TokenApi.req_body (request_of c))) with
  | TokenApi.Jwt _ =>
      localStorage (configure c (ask sdk statusText c) s)
      = Some (Stored (Some (c_accountSid c)) (Some (c_apiKey c))
                     (Some (c_apiSecret c)) (Some (c_appSid c)))
      ∧ isConfigured (configure c (ask sdk statusText c) s) = true
  | TokenApi.Throws =>
      localStorage (configure c (ask sdk statusText c) s) = localStorage s
      ∧ isConfigured (configure c (ask sdk statusText c) s) = isConfigured s
      ∧ statusMessage (configure c (ask sdk statusText c) s)
        = lit "Credential validation failed: "
          ++ lit "Failed to generate access token"
  end.
Proof.
  intros Hc.
  pose proof (proj2 (request_present c) (complete_nonempty c Hc)) as Hall.
  unfold ask. rewrite (serve_request c sdk Hall).
  destruct (sdk _) as [jwt|].
  - apply configure_accepted; [exact Hc|].
    apply probe_of_answer. cbn [TokenApi.status]. lia.
  - assert (¬ probe_succeeds
                (fetched statusText
                   (TokenApi.Response 500
                      (TokenApi.ErrorBody (lit "Failed to generate access token")))))
      as Hno.
    { rewrite probe_of_answer. cbn [TokenApi.status]. lia. }
    destruct (configure_rejected c _ s (or_intror Hno)) as (H1 & H2 & _).
    split; [exact H1|]. split; [exact H2|].
    unfold configure, handleConfigure. rewrite Hc.
    destruct s; reflexivity.
Qed.

Lemma configure_against_endpoint_witness :
  isConfigured (configure demo_credentials
                  (ask TokenApi.signing_sdk (lit "OK") demo_credentials)
                  form_filled) = true
  ∧ isConfigured (configure demo_credentials
                    (ask TokenApi.failing_sdk (lit "Internal Server Error")
                       demo_credentials)
                    form_filled) = false.
Proof.
  pose proof (configure_against_endpoint TokenApi.signing_sdk (lit "OK")
                demo_credentials form_filled eq_refl) as Hok.
  pose proof (configure_against_endpoint TokenApi.failing_sdk
                (lit "Internal Server Error") demo_credentials form_filled
                eq_refl) as Hfail.
  unfold TokenApi.signing_sdk in Hok at 1.
  unfold TokenApi.failing_sdk in Hfail at 1.
  cbv beta iota in Hok, Hfail.
  destruct Hok as [_ Hok]. destruct Hfail as (_ & Hfail & _).
  split; [exact Hok|]. rewrite Hfail. vm_compute. reflexivity.
Defined.

(** What [initializeDevice] makes of the endpoint's answer. *)
Theorem token_against_endpoint
    (sdk : TokenApi.AccessToken → TokenApi.sdk_result)
    (statusText : jsstring) (c : credentials) :
  areCredentialsComplete c = true →
  token_of (ask sdk statusText c)
  = match sdk (TokenApi.token_for (TokenApi.req_body (request_of c))) with
    | TokenApi.Jwt [] => inl (ErrorObject (lit "No token received from API"))
    | TokenApi.Jwt jwt => inr jwt
    | TokenApi.Throws =>
        inl (ErrorObject (lit "Failed to generate access token"))
    end.
Proof.
  intros Hc.
  pose proof (proj2 (request_present c) (complete_nonempty c Hc)) as Hall.
  unfold ask. rewrite (serve_request c sdk Hall).
  destruct (sdk _) as [[|j jwt]|]; reflexivity.
Qed.

Lemma token_against_endpoint_witness :
  token_of (ask TokenApi.signing_sdk (lit "OK") demo_credentials)
  = inr (lit "header.payload.signature").
Proof.
  rewrite (token_against_endpoint TokenApi.signing_sdk (lit "OK")
             demo_credentials eq_refl).
  reflexivity.
Defined.

End EndToEnd.
